(** * run_grid_search.py: hyper-parameter sweeps for the stance classifiers

    A shallow embedding of [stance/run_grid_search.py]: the two parameter
    generators ([get_param_grid], [randsample_params]) and the sweep
    controller [GridSearch] with its operations [fixed] and [xval].

    Conventions of the embedding.
    - A Python [dict] is an association list in insertion order.
    - A Python [float] is written as the rational its literal denotes; the
      only float arithmetic of the script is in the random sampler.  The
      mean and the deviation of the scores are numpy's, and stay parameters.
    - The counts [rand], [repeat] and [cv] are natural numbers.
    - An exception is the [Raise] outcome of a computation; the state reached
      when it was raised is kept, so that what happened before it is visible.
    - What the script does to the outside (the CSV file, the loader, the
      training routines) is recorded as a trace of events.  Opening the CSV
      file is taken to succeed.
    - Logging is left out: it writes to the log only. *)

From Stdlib Require Import List String Ascii Bool Arith ZArith NArith QArith Lia Lqa.
From Stdlib Require Import DecimalString DecimalNat Sorted Permutation.
Import ListNotations.
Local Open Scope nat_scope.
Local Open Scope string_scope.
Local Open Scope list_scope.

Set Implicit Arguments.

(* ------------------------------------------------------------------ *)
(** ** Python values, exceptions, dictionaries *)

Inductive value : Type :=
| VBool (b : bool)
| VInt (z : Z)
| VFloat (q : Q)
| VExp10 (e : Q)          (* the float [10 ** e] *)
| VStr (s : string).

Inductive exn : Type :=
| NotImplementedError
| ValueError
| IndexError
| Other (name : string).   (* raised by a collaborator outside the script *)

Inductive result (A : Type) : Type :=
| Ok (a : A)
| Raise (e : exn).
Arguments Ok {A} a.
Arguments Raise {A} e.

(** The value of an outcome, [d] when it raised. *)
Definition ok_or {A} (d : A) (r : result A) : A :=
  match r with
  | Ok a => a
  | Raise _ => d
  end.

(** [bool(v)] of Python, used by [if profile:]. *)
Definition truthy (v : value) : bool :=
  match v with
  | VBool b => b
  | VInt z => negb (Z.eqb z 0)
  | VFloat q => negb (Qeq_bool q 0)
  | VExp10 _ => true
  | VStr s => negb (String.eqb s "")
  end.

Definition truthy_opt (o : option value) : bool :=
  match o with
  | Some v => truthy v
  | None => false
  end.

Module Dict.

Definition t (V : Type) : Type := list (string * V).

Definition keys {V} (d : t V) : list string := map fst d.

Fixpoint get {V} (k : string) (d : t V) : option V :=
  match d with
  | [] => None
  | (k', v) :: d' => if String.eqb k k' then Some v else get k d'
  end.

(** [d[k] = v]: a present key keeps its place, a new key goes last. *)
Fixpoint set {V} (k : string) (v : V) (d : t V) : t V :=
  match d with
  | [] => [(k, v)]
  | (k', v') :: d' =>
      if String.eqb k k' then (k', v) :: d' else (k', v') :: set k v d'
  end.

Definition remove {V} (k : string) (d : t V) : t V :=
  filter (fun kv => negb (String.eqb k (fst kv))) d.

(** [d.pop(k, None)]: the value (or [None]) and the dictionary without [k]. *)
Definition pop {V} (k : string) (d : t V) : option V * t V :=
  (get k d, remove k d).

(** [d.update(e)]. *)
Definition update {V} (d e : t V) : t V :=
  fold_left (fun acc kv => set (fst kv) (snd kv) acc) e d.

Definition mem {V} (k : string) (d : t V) : bool :=
  match get k d with Some _ => true | None => false end.

End Dict.

Definition dict : Type := Dict.t value.

(** [x in l] for a list of strings. *)
Definition str_in (x : string) (l : list string) : bool :=
  existsb (String.eqb x) l.

(* ------------------------------------------------------------------ *)
(** ** sklearn's ParameterGrid, as the script uses it

    [list(ParameterGrid(d))] sorts the items of [d] by key and yields, for
    every tuple of [itertools.product] over the value lists (the last key
    varying fastest), the dictionary [dict(zip(keys, tuple))]. *)

Fixpoint insert_sorted {V} (kv : string * V) (l : list (string * V)) :=
  match l with
  | [] => [kv]
  | kv' :: l' =>
      if String.leb (fst kv) (fst kv') then kv :: l
      else kv' :: insert_sorted kv l'
  end.

Definition sorted_items {V} (d : Dict.t V) : list (string * V) :=
  fold_right insert_sorted [] d.

Fixpoint product_dicts (items : list (string * list value)) : list dict :=
  match items with
  | [] => [[]]
  | (k, vs) :: rest =>
      flat_map (fun v => map (cons (k, v)) (product_dicts rest)) vs
  end.

Definition ParameterGrid (param_combs : Dict.t (list value)) : list dict :=
  product_dicts (sorted_items param_combs).

(* ------------------------------------------------------------------ *)
(** ** get_param_grid *)

Definition crossnet_names := ["crossnet"; "cn"; "CrossNet"; "crossNet"].
Definition memnet_names :=
  ["memnet"; "MemNet"; "mn"; "memNet"; "AttNet"; "attnet"].
Definition transformer_names := ["tf"; "transformer"; "Transformer"].

(** The generic candidate lists of the grid. *)
Definition grid_base : Dict.t (list value) :=
  [ ("max_vocabsize", [VInt 100000; VInt 200000; VInt 300000]);
    ("max_seqlen", [VInt 20; VInt 40]);
    ("max_tgtlen", [VInt 1]);
    ("profile", [VBool false; VBool true]);
    ("max_prflen", [VInt 20; VInt 40]);
    ("dropout", [VFloat 0.1; VFloat 0.3; VFloat 0.6; VFloat 0.9]);
    ("lr", [VFloat 0.1; VFloat 0.01; VFloat 0.001; VFloat 0.0001]);
    ("validation_split", [VFloat 0.2]);
    ("epochs", [VInt 200]);
    ("batch_size", [VInt 32; VInt 64; VInt 128; VInt 256]);
    ("patience", [VInt 30]) ].

(** The candidate lists a model family adds, [None] for an unknown name. *)
Definition grid_family (modelname : string) : option (Dict.t (list value)) :=
  if str_in modelname crossnet_names then
    Some [ ("dim_lstm", [VInt 100; VInt 200; VInt 300]);
           ("num_reason", [VInt 1; VInt 2; VInt 3]);
           ("dim_dense", [VInt 100; VInt 200; VInt 300]) ]
  else if str_in modelname memnet_names then
    Some [ ("dim_lstm", [VInt 100; VInt 200; VInt 300]);
           ("num_layers", [VInt 1; VInt 2; VInt 3; VInt 4]) ]
  else if str_in modelname transformer_names then
    Some [ ("target", [VBool false; VBool true]);
           ("num_head", [VInt 2; VInt 4; VInt 8]);
           ("num_layers", [VInt 1; VInt 2; VInt 3; VInt 4]) ]
  else None.

Definition get_param_grid (modelname : string) : result (list dict) :=
  let param_combs := grid_base in
  match grid_family modelname with
  | Some extra => Ok (ParameterGrid (Dict.update param_combs extra))
  | None => Raise NotImplementedError
  end.

Definition filter_useless_combs (params : dict) : bool := false.

Definition supported (modelname : string) : bool :=
  str_in modelname crossnet_names
  || str_in modelname memnet_names
  || str_in modelname transformer_names.

(** Product of the lengths of the candidate lists of a dictionary. *)
Definition combinations {V} (d : Dict.t (list V)) : nat :=
  fold_right Nat.mul 1 (map (fun kv => List.length (snd kv)) d).


(* ------------------------------------------------------------------ *)
(** ** numpy.random, as the script uses it

    The generator state is a tape of raw draws and the position of the next
    one.  The three primitives are numpy's: [choice(a)] is an element of [a], [randint(lo, hi)]
    an integer of [lo, hi), [uniform(lo, hi)] is [lo + (hi - lo) * u] for a
    draw [u] of [0, 1) with 53 random bits.  In binary64 the last sum may
    round up to [hi]; bounds on [uniform] are therefore stated closed. *)

Record rng : Type := mkRng {
  tape : nat -> N;
  position : nat
}.

Definition Rand (A : Type) : Type := rng -> A * rng.

Definition rand_ret {A} (a : A) : Rand A := fun g => (a, g).

Definition rand_bind {A B} (m : Rand A) (f : A -> Rand B) : Rand B :=
  fun g => let (a, g') := m g in f a g'.

Declare Scope rand_scope.
Delimit Scope rand_scope with rand.
Notation "x <~ m ;; k" := (rand_bind m (fun x => k))
  (at level 61, m at next level, right associativity) : rand_scope.

Definition next_raw : Rand N :=
  fun g => (tape g (position g), mkRng (tape g) (S (position g))).

Definition choice (a : list value) : Rand value :=
  (r <~ next_raw ;;
   rand_ret (nth (N.to_nat r mod List.length a) a (VBool false)))%rand.

Definition randint (lo hi : Z) : Rand Z :=
  (r <~ next_raw ;; rand_ret (lo + Z.of_N r mod (hi - lo))%Z)%rand.

Definition random_sample : Rand Q :=
  (r <~ next_raw ;; rand_ret (Z.of_N r mod 2 ^ 53 # 2 ^ 53)%Q)%rand.

Definition uniform (lo hi : Q) : Rand Q :=
  (u <~ random_sample ;; rand_ret (lo + (hi - lo) * u)%Q)%rand.

(* ------------------------------------------------------------------ *)
(** ** randsample_params *)

Definition randsample_params (modelname : string) : Rand (result dict) :=
  (max_seqlen <~ choice [VInt 20; VInt 40] ;;
   profile <~ choice [VBool false; VBool true] ;;
   prf_cat <~ choice [VBool false; VBool true] ;;
   max_prflen <~ choice [VInt 20; VInt 40] ;;
   dropout <~ uniform 0.1 0.5 ;;
   lr_exp <~ uniform (-5) (-1) ;;
   batch_exp <~ randint 5 9 ;;
   let param_combs : dict :=
     [ ("max_vocabsize", VInt 10000);
       ("max_seqlen", max_seqlen);
       ("max_tgtlen", VInt 1);
       ("profile", profile);
       ("prf_cat", prf_cat);
       ("max_prflen", max_prflen);
       ("dropout", VFloat dropout);
       ("lr", VExp10 lr_exp);
       ("validation_split", VFloat 0.2);
       ("epochs", VInt 200);
       ("batch_size", VInt (2 ^ batch_exp));
       ("patience", VInt 30) ] in
   if str_in modelname crossnet_names then
     dim_lstm <~ randint 1 6 ;;
     dim_dense <~ randint 1 6 ;;
     rand_ret (Ok (Dict.set "dim_dense" (VInt (100 * dim_dense))
                  (Dict.set "num_reason" (VInt 1)
                  (Dict.set "dim_lstm" (VInt (100 * dim_lstm)) param_combs))))
   else if str_in modelname memnet_names then
     dim_lstm <~ randint 1 6 ;;
     num_layers <~ randint 1 5 ;;
     weight_tying <~ choice [VBool false; VBool true] ;;
     rand_ret (Ok (Dict.set "weight_tying" weight_tying
                  (Dict.set "num_layers" (VInt num_layers)
                  (Dict.set "dim_lstm" (VInt (100 * dim_lstm)) param_combs))))
   else if str_in modelname transformer_names then
     head_exp <~ randint 1 4 ;;
     num_layers <~ randint 1 5 ;;
     rand_ret (Ok (Dict.set "num_layers" (VInt num_layers)
                  (Dict.set "num_head" (VInt (2 ^ head_exp))
                  (Dict.set "parallel" (VInt 1)
                  (Dict.set "target" (VInt 1) param_combs)))))
   else rand_ret (Raise NotImplementedError))%rand.

(** The ranges and choice sets the sampler declares, per parameter name. *)
Definition int_in (z : Z) (l : list Z) : bool := existsb (Z.eqb z) l.

Definition is_bool (v : value) : bool :=
  match v with VBool _ => true | _ => false end.

Definition is_int_in (v : value) (l : list Z) : bool :=
  match v with VInt z => int_in z l | _ => false end.

Definition is_float_eq (v : value) (q : Q) : bool :=
  match v with VFloat x => Qeq_bool x q | _ => false end.

Definition in_declared_range (name : string) (v : value) : bool :=
  if String.eqb name "max_vocabsize" then is_int_in v [10000]%Z
  else if String.eqb name "max_seqlen" then is_int_in v [20; 40]%Z
  else if String.eqb name "max_tgtlen" then is_int_in v [1]%Z
  else if String.eqb name "profile" then is_bool v
  else if String.eqb name "prf_cat" then is_bool v
  else if String.eqb name "max_prflen" then is_int_in v [20; 40]%Z
  else if String.eqb name "dropout" then
    match v with
    | VFloat x => Qle_bool 0.1 x && Qle_bool x 0.5
    | _ => false
    end
  else if String.eqb name "lr" then
    match v with
    | VExp10 e => Qle_bool (-5) e && Qle_bool e (-1)
    | _ => false
    end
  else if String.eqb name "validation_split" then is_float_eq v 0.2
  else if String.eqb name "epochs" then is_int_in v [200]%Z
  else if String.eqb name "batch_size" then is_int_in v [32; 64; 128; 256]%Z
  else if String.eqb name "patience" then is_int_in v [30]%Z
  else if String.eqb name "dim_lstm" then is_int_in v [100; 200; 300; 400; 500]%Z
  else if String.eqb name "dim_dense" then is_int_in v [100; 200; 300; 400; 500]%Z
  else if String.eqb name "num_reason" then is_int_in v [1]%Z
  else if String.eqb name "num_layers" then is_int_in v [1; 2; 3; 4]%Z
  else if String.eqb name "weight_tying" then is_bool v
  else if String.eqb name "target" then is_int_in v [1]%Z
  else if String.eqb name "parallel" then is_int_in v [1]%Z
  else if String.eqb name "num_head" then is_int_in v [2; 4; 8]%Z
  else false.

(* ------------------------------------------------------------------ *)
(** ** Strings of the script *)

(** [str(n)] for a natural number. *)
Definition str_of_nat (n : nat) : string :=
  NilEmpty.string_of_uint (Nat.to_uint n).

(** The column of the [i]-th score (counted from 0): [f'fmacro_{i+1}']. *)
Definition fmacro_key (i : nat) : string :=
  ("fmacro_" ++ str_of_nat (i + 1))%string.

Fixpoint endswith_sep (s : string) : bool :=
  match s with
  | EmptyString => false
  | String c EmptyString => Ascii.eqb c "/"
  | String _ s' => endswith_sep s'
  end.

(** [os.path.join(a, b)] on a POSIX system. *)
Definition path_join (a b : string) : string :=
  if String.prefix "/" b then b
  else if String.eqb a "" || endswith_sep a then (a ++ b)%string
  else (a ++ "/" ++ b)%string.

(* ------------------------------------------------------------------ *)
(** ** A small outside world

    Concrete collaborators, for running the sweep on concrete inputs: the
    world counts the calls made so far, a loaded array is named after its
    file, every score is 1/2 (so that the mean is 1/2 and the deviation 0),
    and the training routine of [run_fixed_failing] gives up at its fourth
    call. *)

Module Demo.

Definition World : Type := nat.
Definition Arrays : Type := string.

Definition today (w : World) : string := "04Nov2026".

Definition load_data (fp : string) (profile : bool) (w : World)
  : result (Arrays * Arrays) * World :=
  (Ok ((fp ++ (if profile then ":x+profile" else ":x"))%string,
       (fp ++ ":y")%string), S w).

(** A loader that does not find the test file. *)
Definition load_data_missing (fp : string) (profile : bool) (w : World)
  : result (Arrays * Arrays) * World :=
  if String.eqb fp "data/test.csv"
  then (Raise (Other "FileNotFoundError"), S w)
  else load_data fp profile w.

Definition run_fixed_fast (model : string)
    (x_train y_train x_test y_test : Arrays) (wvfp : option string)
    (profile : option value) (params : Dict.t value) (w : World)
  : result Q * World :=
  (Ok (1 # 2)%Q, S w).

Definition run_fixed_failing (model : string)
    (x_train y_train x_test y_test : Arrays) (wvfp : option string)
    (profile : option value) (params : Dict.t value) (w : World)
  : result Q * World :=
  if Nat.eqb w 7 then (Raise (Other "ResourceExhaustedError"), S w)
  else (Ok (1 # 2)%Q, S w).

Definition run_xval (model : string) (x y : Arrays)
    (wvfp : option string) (profile : option value) (cv : nat)
    (params : Dict.t value) (w : World)
  : result (list Q) * World :=
  (Ok (List.repeat (1 # 2)%Q cv), S w).

Definition np_average (l : list Q) : Q :=
  Qred (fold_right Qplus 0%Q l / inject_Z (Z.of_nat (List.length l))).

Definition np_std (l : list Q) : Q := 0%Q.

(** The raw draws 0, 1, 2, ... *)
Definition draws : rng := mkRng N.of_nat 0.

End Demo.

(* ------------------------------------------------------------------ *)
(** ** The sweep controller

    The collaborators of the script are parameters of the section: the
    clock, the data loader, the two training entry points and numpy's two
    statistics.  Each effectful one reads and changes an outside [World] and
    may raise. *)

Section Sweep.

Variable World : Type.
Variable Arrays : Type.

(** [f'{datetime.now():%d%b%Y}']. *)
Variable today : World -> string.

(** [load_data(fp, target='all', profile=b)], returning [(x, y)]. *)
Variable load_data :
  string -> bool -> World -> result (Arrays * Arrays) * World.

(** [run_fixed_fast(model, x_train, y_train, x_test, y_test, wvfp,
    profile, params=params)]. *)
Variable run_fixed_fast :
  string -> Arrays -> Arrays -> Arrays -> Arrays ->
  option string -> option value -> dict -> World -> result Q * World.

(** [run_xval(model, x, y, wvfp, profile, cv=cv, params=params)]. *)
Variable run_xval :
  string -> Arrays -> Arrays -> option string -> option value -> nat ->
  dict -> World -> result (list Q) * World.

Variable np_average : list Q -> Q.
Variable np_std : list Q -> Q.

(** What the script does to the outside, in the order it does it. *)
Inductive event : Type :=
| EOpen (filename : string)
| EWrite (line : list value)
| EClose
| ELoad (fp : string) (profile : bool)
| ETrain (x_train y_train x_test y_test : Arrays)
         (profile : option value) (params : dict) (outcome : result Q)
| EXval (x y : Arrays) (profile : option value) (cv : nat)
        (params : dict) (outcome : result (list Q)).

Record state : Type := mkState {
  world : World;
  entropy : rng;
  trace : list event
}.

(** Computations that change the state and may raise. *)
Definition M (A : Type) : Type := state -> result A * state.

Definition ret {A} (a : A) : M A := fun s => (Ok a, s).

Definition raise {A} (e : exn) : M A := fun s => (Raise e, s).

Definition bind {A B} (m : M A) (f : A -> M B) : M B :=
  fun s =>
    match m s with
    | (Ok a, s') => f a s'
    | (Raise e, s') => (Raise e, s')
    end.

Notation "x <- m ;; k" := (bind m (fun x => k))
  (at level 61, m at next level, right associativity).
Notation "m ;;; k" := (bind m (fun _ => k))
  (at level 61, right associativity).

Definition emit (e : event) : M unit :=
  fun s => (Ok tt, mkState (world s) (entropy s) (trace s ++ [e])).

Definition lift_result {A} (r : result A) : M A := fun s => (r, s).

Definition call_load_data (fp : string) (profile : bool)
  : M (Arrays * Arrays) :=
  fun s =>
    let (r, w) := load_data fp profile (world s) in
    (r, mkState w (entropy s) (trace s ++ [ELoad fp profile])).

Definition call_run_fixed_fast (model : string)
    (x_train y_train x_test y_test : Arrays) (wvfp : option string)
    (profile : option value) (params : dict) : M Q :=
  fun s =>
    let (r, w) :=
      run_fixed_fast model x_train y_train x_test y_test wvfp profile
                     params (world s) in
    (r, mkState w (entropy s)
          (trace s ++ [ETrain x_train y_train x_test y_test profile params r])).

Definition call_run_xval (model : string) (x y : Arrays)
    (wvfp : option string) (profile : option value) (cv : nat)
    (params : dict) : M (list Q) :=
  fun s =>
    let (r, w) := run_xval model x y wvfp profile cv params (world s) in
    (r, mkState w (entropy s) (trace s ++ [EXval x y profile cv params r])).

Definition call_randsample_params (model : string) : M dict :=
  fun s =>
    let (r, g) := randsample_params model (entropy s) in
    (r, mkState (world s) g (trace s)).

(** [[randsample_params(model) for _ in range(n)]]. *)
Fixpoint sample_many (model : string) (n : nat) : M (list dict) :=
  match n with
  | O => ret []
  | S n' =>
      p <- call_randsample_params model ;;
      ps <- sample_many model n' ;;
      ret (p :: ps)
  end.

Record GridSearch : Type := mkGridSearch {
  model : string;
  path : string;
  wvfp : option string;
  rand : option nat;
  repeat : nat;
  cv : nat;
  basename : string;
  param_grid : list dict;
  fieldnames : list string;      (* of [self.writer] *)
  csv_closed : bool              (* of [self._csvf] *)
}.

(** No object: nothing to sweep, nothing to write to. *)
Definition blank : GridSearch :=
  mkGridSearch "" "" None None 0 0 "" [] [] true.

Definition with_param_grid (gs : GridSearch) (g : list dict) : GridSearch :=
  mkGridSearch (model gs) (path gs) (wvfp gs) (rand gs) (repeat gs) (cv gs)
               (basename gs) g (fieldnames gs) (csv_closed gs).

Definition with_closed (gs : GridSearch) : GridSearch :=
  mkGridSearch (model gs) (path gs) (wvfp gs) (rand gs) (repeat gs) (cv gs)
               (basename gs) (param_grid gs) (fieldnames gs) true.

(** [csv.DictWriter.writerow] with the default [extrasaction='raise'] and
    [restval='']: a key outside the field names is an error, a field
    without a key is written empty.  Writing to a closed file is an error
    too. *)
Definition restval : value := VStr "".

Definition csv_line (names : list string) (row : dict) : list value :=
  map (fun k => match Dict.get k row with
                | Some v => v
                | None => restval
                end) names.

Definition wrong_fields (names : list string) (row : dict) : list string :=
  filter (fun k => negb (str_in k names)) (Dict.keys row).

Definition writerow (names : list string) (closed : bool) (row : dict)
  : M unit :=
  match wrong_fields names row with
  | _ :: _ => raise ValueError
  | [] => if closed then raise ValueError
          else emit (EWrite (csv_line names row))
  end.

Definition writeheader (names : list string) (closed : bool) : M unit :=
  writerow names closed
    (fold_left (fun acc k => Dict.set k (VStr k) acc) names []).

Definition truthy_rand (r : option nat) : bool :=
  match r with
  | Some (S _) => true
  | _ => false
  end.

Definition truthy_str (o : option string) : bool :=
  match o with
  | Some s => negb (String.eqb s "")
  | None => false
  end.

(** [GridSearch.__init__]. *)
Definition __init__ (model_ : string) (wvfp_ : option string)
    (rand_ : option nat) (repeat_ cv_ : nat) (path_ : string)
  : M GridSearch :=
  if String.eqb model_ "svm" then raise ValueError
  else
    let wvfp' :=
      match wvfp_ with
      | Some f => if truthy_str wvfp_ then Some (path_join path_ f) else None
      | None => None
      end in
    date <- (fun s => (Ok (today (world s)), s)) ;;
    let sn := if truthy_rand rand_ then "random" else "grid" in
    let basename_ := (sn ++ "_search-" ++ model_ ++ "-" ++ date)%string in
    grid <- (if truthy_rand rand_
             then sample_many model_ (match rand_ with Some n => n | None => 0 end)
             else lift_result (get_param_grid model_)) ;;
    emit (EOpen (basename_ ++ ".csv")%string) ;;;
    first <- match grid with
             | p :: _ => ret p
             | [] => raise IndexError
             end ;;
    let header :=
      Dict.keys first
      ++ map fmacro_key (seq 0 repeat_)
      ++ ["fmacro_avg"; "fmacro_std"] in
    writeheader header false ;;;
    ret (mkGridSearch model_ path_ wvfp' rand_ repeat_ cv_ basename_
                      grid header false).

(** [GridSearch._result2csvrow]. *)
Definition score_fields (fmacro_list : list Q) : dict :=
  fold_left (fun acc iv => Dict.set (fmacro_key (fst iv)) (VFloat (snd iv)) acc)
            (combine (seq 0 (List.length fmacro_list)) fmacro_list) [].

Definition result_row (params : dict) (fmacro_list : list Q) : dict :=
  let average := np_average fmacro_list in
  let stdev := np_std fmacro_list in
  let row := score_fields fmacro_list in
  let row := Dict.update row [("fmacro_avg", VFloat average);
                              ("fmacro_std", VFloat stdev)] in
  Dict.update row params.

Definition _result2csvrow (gs : GridSearch) (params : dict)
    (fmacro_list : list Q) : M unit :=
  writerow (fieldnames gs) (csv_closed gs) (result_row params fmacro_list).

(** [for params in self.param_grid: body]: the body changes the
    dictionary in place, then runs; an exception leaves the loop, and the
    dictionaries after the current one are as they were. *)
Fixpoint for_each (body : dict -> dict * M unit) (ps : list dict)
    (s : state) : result unit * list dict * state :=
  match ps with
  | [] => (Ok tt, [], s)
  | params :: rest =>
      let (params', run) := body params in
      match run s with
      | (Ok _, s1) =>
          let '(r, rest', s2) := for_each body rest s1 in
          (r, params' :: rest', s2)
      | (Raise e, s1) => (Raise e, params' :: rest, s1)
      end
  end.

(** [for i in range(n): fmacro_list.append(call)]. *)
Fixpoint repeat_append (n : nat) (call : M Q) (fmacro_list : list Q)
  : M (list Q) :=
  match n with
  | O => ret fmacro_list
  | S n' =>
      fmacro <- call ;;
      repeat_append n' call (fmacro_list ++ [fmacro])
  end.

Record fixed_data : Type := mkFixedData {
  train : Arrays * Arrays;
  train_p : Arrays * Arrays;
  test : Arrays * Arrays;
  test_p : Arrays * Arrays
}.

Definition load_fixed (trainfp testfp : string) : M fixed_data :=
  tr <- call_load_data trainfp false ;;
  trp <- call_load_data trainfp true ;;
  te <- call_load_data testfp false ;;
  tep <- call_load_data testfp true ;;
  ret (mkFixedData tr trp te tep).

Definition fixed_call (gs : GridSearch) (d : fixed_data)
    (profile : option value) (params : dict) : M Q :=
  if truthy_opt profile then
    call_run_fixed_fast (model gs)
      (fst (train_p d)) (snd (train_p d)) (fst (test_p d)) (snd (test_p d))
      (wvfp gs) profile params
  else
    call_run_fixed_fast (model gs)
      (fst (train d)) (snd (train d)) (fst (test d)) (snd (test d))
      (wvfp gs) profile params.

Definition fixed_body (gs : GridSearch) (d : fixed_data) (params : dict)
  : dict * M unit :=
  if filter_useless_combs params then (params, ret tt)
  else
    let (profile, params') := Dict.pop "profile" params in
    (params',
     fmacro_list <- repeat_append (repeat gs)
                      (fixed_call gs d profile params') [] ;;
     _result2csvrow gs params' fmacro_list).

(** [GridSearch.fixed]: the outcome, the object and the state after it. *)
Definition fixed (gs : GridSearch) (trainfp testfp : string) (s : state)
  : result unit * GridSearch * state :=
  let trainfp := path_join (path gs) trainfp in
  let testfp := path_join (path gs) testfp in
  match load_fixed trainfp testfp s with
  | (Raise e, s1) => (Raise e, gs, s1)
  | (Ok d, s1) =>
      let '(r, grid, s2) := for_each (fixed_body gs d) (param_grid gs) s1 in
      match r with
      | Raise e => (Raise e, with_param_grid gs grid, s2)
      | Ok _ =>
          (Ok tt, with_closed (with_param_grid gs grid),
           mkState (world s2) (entropy s2) (trace s2 ++ [EClose]))
      end
  end.

Definition load_xval (datafp : string)
  : M ((Arrays * Arrays) * (Arrays * Arrays)) :=
  d <- call_load_data datafp false ;;
  dp <- call_load_data datafp true ;;
  ret (d, dp).

Definition xval_call (gs : GridSearch)
    (d : (Arrays * Arrays) * (Arrays * Arrays))
    (profile : option value) (params : dict) : M (list Q) :=
  if truthy_opt profile then
    call_run_xval (model gs) (fst (snd d)) (snd (snd d))
                  (wvfp gs) profile (cv gs) params
  else
    call_run_xval (model gs) (fst (fst d)) (snd (fst d))
                  (wvfp gs) profile (cv gs) params.

Definition xval_body (gs : GridSearch)
    (d : (Arrays * Arrays) * (Arrays * Arrays)) (params : dict)
  : dict * M unit :=
  if filter_useless_combs params then (params, ret tt)
  else
    let (profile, params') := Dict.pop "profile" params in
    (params',
     fmacro_list <- xval_call gs d profile params' ;;
     _result2csvrow gs params' fmacro_list).

(** [GridSearch.xval]. *)
Definition xval (gs : GridSearch) (datafp : string) (s : state)
  : result unit * GridSearch * state :=
  let datafp := path_join (path gs) datafp in
  match load_xval datafp s with
  | (Raise e, s1) => (Raise e, gs, s1)
  | (Ok d, s1) =>
      let '(r, grid, s2) := for_each (xval_body gs d) (param_grid gs) s1 in
      match r with
      | Raise e => (Raise e, with_param_grid gs grid, s2)
      | Ok _ =>
          (Ok tt, with_closed (with_param_grid gs grid),
           mkState (world s2) (entropy s2) (trace s2 ++ [EClose]))
      end
  end.

(** The two commands of the script: [Fire(GridSearch)] builds the object
    and calls the method named on the command line. *)
Inductive command : Type :=
| CmdFixed (trainfp testfp : string)
| CmdXval (datafp : string).

Definition run_command (gs : GridSearch) (c : command) (s : state)
  : result unit * GridSearch * state :=
  match c with
  | CmdFixed trainfp testfp => fixed gs trainfp testfp s
  | CmdXval datafp => xval gs datafp s
  end.

(** The lines of the CSV file that a trace has written. *)
Definition written (t : list event) : list (list value) :=
  flat_map (fun e => match e with EWrite l => [l] | _ => [] end) t.

(** The parameter sets the filter keeps. *)
Definition retained (ps : list dict) : list dict :=
  filter (fun p => negb (filter_useless_combs p)) ps.

(** The exception of a training or cross-validation call that raised. *)
Definition raised (ev : event) : option exn :=
  match ev with
  | ETrain _ _ _ _ _ _ (Raise e) => Some e
  | EXval _ _ _ _ _ (Raise e) => Some e
  | _ => None
  end.


(** What one pass of the loop body does, for the parameter set [params]:
    the events it adds and its outcome.  [acq] describes how the scores
    are obtained. *)
Section Blocks.

Variable gs : GridSearch.
Variable acq :
  option value -> dict -> list event -> result (list Q) -> Prop.

Inductive block (params : dict) : list event -> result unit -> Prop :=
| block_row evs fmacro_list :
    acq (Dict.get "profile" params) (Dict.remove "profile" params)
        evs (Ok fmacro_list) ->
    wrong_fields (fieldnames gs)
      (result_row (Dict.remove "profile" params) fmacro_list) = [] ->
    csv_closed gs = false ->
    block params
      (evs ++ [EWrite (csv_line (fieldnames gs)
                 (result_row (Dict.remove "profile" params) fmacro_list))])
      (Ok tt)
| block_call_raises evs e :
    acq (Dict.get "profile" params) (Dict.remove "profile" params)
        evs (Raise e) ->
    block params evs (Raise e)
| block_write_raises evs fmacro_list :
    acq (Dict.get "profile" params) (Dict.remove "profile" params)
        evs (Ok fmacro_list) ->
    wrong_fields (fieldnames gs)
      (result_row (Dict.remove "profile" params) fmacro_list) <> []
    \/ csv_closed gs = true ->
    block params evs (Raise ValueError).

(** A whole loop over [ps]: one block per parameter set up to the end or
    up to the first block that raises; [grid] is the list of
    dictionaries afterwards. *)
Inductive blocks : list dict -> list (list event) -> result unit ->
                   list dict -> Prop :=
| blocks_done : blocks [] [] (Ok tt) []
| blocks_next p ps evs bs r grid :
    block p evs (Ok tt) ->
    blocks ps bs r grid ->
    blocks (p :: ps) (evs :: bs) r (Dict.remove "profile" p :: grid)
| blocks_stop p ps evs e :
    block p evs (Raise e) ->
    blocks (p :: ps) [evs] (Raise e) (Dict.remove "profile" p :: ps).

End Blocks.

(** The call of [fixed] for one repetition, with the data it selects. *)
Definition train_event (d : fixed_data) (profile : option value)
    (params : dict) (outcome : result Q) : event :=
  if truthy_opt profile then
    ETrain (fst (train_p d)) (snd (train_p d))
           (fst (test_p d)) (snd (test_p d)) profile params outcome
  else
    ETrain (fst (train d)) (snd (train d))
           (fst (test d)) (snd (test d)) profile params outcome.

(** [fixed] obtains its scores by [repeat] successful calls, or stops at
    the first call that raises. *)
Definition acq_fixed (gs : GridSearch) (d : fixed_data)
    (profile : option value) (params : dict)
    (evs : list event) (r : result (list Q)) : Prop :=
  exists fmacro_list,
    let calls := map (fun q => train_event d profile params (Ok q))
                     fmacro_list in
    (r = Ok fmacro_list /\ List.length fmacro_list = repeat gs
     /\ evs = calls)
    \/ (exists e, r = Raise e /\ List.length fmacro_list < repeat gs
        /\ evs = calls ++ [train_event d profile params (Raise e)]).

Definition xval_event (gs : GridSearch)
    (d : (Arrays * Arrays) * (Arrays * Arrays)) (profile : option value)
    (params : dict) (outcome : result (list Q)) : event :=
  if truthy_opt profile then
    EXval (fst (snd d)) (snd (snd d)) profile (cv gs) params outcome
  else
    EXval (fst (fst d)) (snd (fst d)) profile (cv gs) params outcome.

(** [xval] obtains its scores by one call. *)
Definition acq_xval (gs : GridSearch)
    (d : (Arrays * Arrays) * (Arrays * Arrays))
    (profile : option value) (params : dict)
    (evs : list event) (r : result (list Q)) : Prop :=
  evs = [xval_event gs d profile params r].

Definition is_load (ev : event) : Prop :=
  match ev with ELoad _ _ => True | _ => False end.

Definition is_call (ev : event) : Prop :=
  match ev with
  | ETrain _ _ _ _ _ _ _ | EXval _ _ _ _ _ _ => True
  | _ => False
  end.

(** A call that returned. *)
Definition returned (ev : event) : Prop := is_call ev /\ raised ev = None.

(** The scores are obtained by calls only; the calls before the last all
    return, and the last one raises exactly when no scores are obtained. *)
Definition call_like
    (acq : option value -> dict -> list event -> result (list Q) -> Prop)
  : Prop :=
  forall profile params evs r,
    acq profile params evs r ->
    match r with
    | Ok _ => Forall returned evs
    | Raise e =>
        exists evs0 ev,
          evs = evs0 ++ [ev] /\ Forall returned evs0
          /\ is_call ev /\ raised ev = Some e
    end.

(** The line of a data row: the fields of some parameter set without its
    profile flag, and of some scores. *)
Definition data_line (gs : GridSearch) (line : list value) : Prop :=
  exists params fmacro_list,
    line = csv_line (fieldnames gs)
             (result_row (Dict.remove "profile" params) fmacro_list).


(** The closing event, after a loop that did not raise. *)
Definition closing (r : result unit) : list event :=
  match r with Ok _ => [EClose] | Raise _ => [] end.

(** How [__init__] obtained the parameter grid. *)
Definition generated (model_ : string) (rand_ : option nat)
    (grid : list dict) : Prop :=
  if truthy_rand rand_
  then Forall (fun p => exists g, fst (randsample_params model_ g) = Ok p)
              grid
  else get_param_grid model_ = Ok grid.

(** No parameter is named like a score column. *)
Definition plain_keys (p : dict) : bool :=
  forallb (fun k => negb (String.prefix "fmacro_" k)) (Dict.keys p).

(** The parameters and the scores of a cross-validation call that
    returned. *)
Definition xval_scores (ev : event) : option (dict * list Q) :=
  match ev with
  | EXval _ _ _ _ params (Ok l) => Some (params, l)
  | _ => None
  end.

Definition add_score (acc : dict) (iv : nat * Q) : dict :=
  Dict.set (fmacro_key (fst iv)) (VFloat (snd iv)) acc.

(** The header that [__init__] computes from the first parameter set. *)
Definition header_of (first : dict) (repeat_ : nat) : list string :=
  Dict.keys first ++ map fmacro_key (seq 0 repeat_)
  ++ ["fmacro_avg"; "fmacro_std"].

(** The three grids have 41472, 18432 and 36864 parameter sets. *)
Definition grid_count (modelname : string) : option N :=
  match get_param_grid modelname with
  | Ok g => Some (N.of_nat (List.length g))
  | Raise _ => None
  end.

(** Alphabetical order of names, as [sorted] compares keys. *)
Definition name_le (a b : string) : Prop := String.leb a b = true.

(** No name occurs twice. *)
Fixpoint distinct_names (l : list string) : bool :=
  match l with
  | [] => true
  | x :: r => negb (str_in x r) && distinct_names r
  end.

(** The names that the sampler gives a parameter set, in the order in which
    it inserts them. *)
Definition sample_base_names : list string :=
  ["max_vocabsize"; "max_seqlen"; "max_tgtlen"; "profile"; "prf_cat";
   "max_prflen"; "dropout"; "lr"; "validation_split"; "epochs";
   "batch_size"; "patience"].

Definition sample_family_names (modelname : string) : list string :=
  if str_in modelname crossnet_names then
    ["dim_lstm"; "num_reason"; "dim_dense"]
  else if str_in modelname memnet_names then
    ["dim_lstm"; "num_layers"; "weight_tying"]
  else if str_in modelname transformer_names then
    ["target"; "parallel"; "num_head"; "num_layers"]
  else [].

(** The calls of [load_data] that a command makes before its loop, in
    order: the file and the [profile] argument of each. *)
Definition load_plan (gs : GridSearch) (c : command)
  : list (string * bool) :=
  match c with
  | CmdFixed trainfp testfp =>
      let tr := path_join (path gs) trainfp in
      let te := path_join (path gs) testfp in
      [(tr, false); (tr, true); (te, false); (te, true)]
  | CmdXval datafp =>
      let fp := path_join (path gs) datafp in
      [(fp, false); (fp, true)]
  end.

(** The calls of [plan] all return, and take the world from [w] to
    [w_end]. *)
Fixpoint loads_ok (plan : list (string * bool)) (w w_end : World) : Prop :=
  match plan with
  | [] => w = w_end
  | (fp, profile) :: rest =>
      exists d w1, load_data fp profile w = (Ok d, w1)
                   /\ loads_ok rest w1 w_end
  end.

Definition load_events (plan : list (string * bool)) : list event :=
  map (fun fb => ELoad (fst fb) (snd fb)) plan.

(* ---------------------------------------------------------------- *)
(** ** Theorems *)

(** *** Size of the grid *)

Lemma flat_map_length_const {A B} (f : A -> list B) n l :
  (forall a, List.length (f a) = n) ->
  List.length (flat_map f l) = List.length l * n.
Proof.
  intros Hf. induction l as [|a l IH]; [reflexivity|].
  cbn [flat_map]. rewrite length_app, Hf, IH. reflexivity.
Qed.

Lemma product_dicts_length items :
  List.length (product_dicts items) = combinations items.
Proof.
  induction items as [|[k vs] rest IH]; [reflexivity|].
  cbn [product_dicts].
  rewrite flat_map_length_const with (n := combinations rest).
  - reflexivity.
  - intros v. now rewrite length_map.
Qed.

Lemma combinations_insert_sorted {V} (kv : string * list V) l :
  combinations (insert_sorted kv l) = List.length (snd kv) * combinations l.
Proof.
  induction l as [|kv' l IH]; [reflexivity|].
  cbn [insert_sorted]. destruct (String.leb _ _); [reflexivity|].
  unfold combinations in *. cbn [map fold_right]. rewrite IH. lia.
Qed.

Lemma combinations_sorted_items {V} (d : Dict.t (list V)) :
  combinations (sorted_items d) = combinations d.
Proof.
  induction d as [|kv d IH]; [reflexivity|].
  cbn [sorted_items fold_right]. rewrite combinations_insert_sorted.
  fold (sorted_items d). rewrite IH. reflexivity.
Qed.

Lemma ParameterGrid_length d :
  List.length (ParameterGrid d) = combinations d.
Proof.
  unfold ParameterGrid.
  now rewrite product_dicts_length, combinations_sorted_items.
Qed.


(** C3: for every supported model name the grid generator returns as many
    parameter sets as the product of the lengths of the candidate lists of
    that family, the generic lists together with the family's own. *)
Theorem grid_size_is_product (modelname : string) :
  supported modelname = true ->
  exists extra grid,
    grid_family modelname = Some extra /\
    get_param_grid modelname = Ok grid /\
    List.length grid = combinations (grid_base ++ extra).
Proof.
  unfold supported, get_param_grid, grid_family. intros Hs.
  destruct (str_in modelname crossnet_names);
    [|destruct (str_in modelname memnet_names);
      [|destruct (str_in modelname transformer_names); [|discriminate Hs]]].
  all: do 2 eexists; split; [reflexivity|split; [reflexivity|]].
  all: rewrite ParameterGrid_length; f_equal; vm_compute; reflexivity.
Qed.

Example grid_sizes :
  grid_count "crossnet" = Some 41472%N
  /\ grid_count "memnet" = Some 18432%N
  /\ grid_count "tf" = Some 36864%N.
Proof.
  unfold grid_count, get_param_grid.
  repeat split;
    match goal with
    | |- context [grid_family ?m] =>
        let x := eval vm_compute in (grid_family m) in
        change (grid_family m) with x
    end; cbv beta iota; rewrite ParameterGrid_length; vm_compute; reflexivity.
Qed.

(** *** The constructor *)

(** C10: constructing the controller for the model ['svm'] raises
    [ValueError] at once: the state is the one before the call, so nothing
    was sampled and no file was opened or written. *)
Theorem svm_rejected_at_construction
    (wvfp_ : option string) (rand_ : option nat) (repeat_ cv_ : nat)
    (path_ : string) (s : state) :
  __init__ "svm" wvfp_ rand_ repeat_ cv_ path_ s = (Raise ValueError, s).
Proof. reflexivity. Qed.


(** *** The random sampler *)

Lemma choice_in (a : list value) (g : rng) :
  a <> [] -> In (fst (choice a g)) a.
Proof.
  intros Ha. unfold choice, rand_bind, rand_ret, next_raw. cbn [fst].
  apply nth_In. apply Nat.mod_upper_bound.
  destruct a; [contradiction|discriminate].
Qed.

Lemma choice_sat (P : value -> bool) (a : list value) (g : rng) :
  a <> [] -> forallb P a = true -> P (fst (choice a g)) = true.
Proof.
  intros Ha HP. rewrite forallb_forall in HP. apply HP.
  now apply choice_in.
Qed.

Lemma randint_range (lo hi : Z) (g : rng) :
  (lo < hi)%Z -> (lo <= fst (randint lo hi g) < hi)%Z.
Proof.
  intros H. unfold randint, rand_bind, rand_ret, next_raw. cbn [fst].
  pose proof (Z.mod_pos_bound (Z.of_N (tape g (position g))) (hi - lo)).
  lia.
Qed.

Lemma random_sample_range (g : rng) :
  (0 <= fst (random_sample g))%Q /\ (fst (random_sample g) < 1)%Q.
Proof.
  unfold random_sample, rand_bind, rand_ret, next_raw. cbn [fst].
  pose proof (Z.mod_pos_bound (Z.of_N (tape g (position g))) (2 ^ 53)
                              eq_refl) as Hm.
  unfold Qle, Qlt. cbn [Qnum Qden].
  change (Z.pos (2 ^ 53)) with (2 ^ 53)%Z. lia.
Qed.

Lemma uniform_range (lo hi : Q) (g : rng) :
  (lo <= hi)%Q ->
  (lo <= fst (uniform lo hi g))%Q /\ (fst (uniform lo hi g) <= hi)%Q.
Proof.
  intros H. unfold uniform, rand_bind, rand_ret.
  destruct (random_sample_range g) as [H0 H1].
  destruct (random_sample g) as [u g']. cbn [fst] in *.
  split; nra.
Qed.


Ltac draw_choice :=
  match goal with
  | |- context [choice ?a ?g] =>
      let H := fresh "Hc" in
      pose proof (fun P => @choice_sat P a g ltac:(discriminate)) as H;
      destruct (choice a g) as [? ?]; cbn [fst] in H
  end.

Ltac draw_randint :=
  match goal with
  | |- context [randint ?lo ?hi ?g] =>
      let H := fresh "Hr" in
      pose proof (@randint_range lo hi g eq_refl) as H;
      destruct (randint lo hi g) as [? ?]; cbn [fst] in H
  end.

Ltac draw_uniform :=
  match goal with
  | |- context [uniform ?lo ?hi ?g] =>
      let H := fresh "Hu" in
      pose proof (@uniform_range lo hi g ltac:(discriminate)) as H;
      destruct (uniform lo hi g) as [? ?]; cbn [fst] in H
  end.

Ltac draws := repeat (first [draw_choice | draw_randint | draw_uniform]).

Lemma Qle_bool_both (lo hi x : Q) :
  (lo <= x)%Q /\ (x <= hi)%Q -> Qle_bool lo x && Qle_bool x hi = true.
Proof.
  intros [H1 H2]. apply andb_true_intro.
  split; now apply Qle_bool_iff.
Qed.

Ltac split_range H :=
  match type of H with
  | (?lo <= ?z < ?hi)%Z =>
      first
        [ exfalso; lia
        | destruct (Z.eq_dec z lo) as [->|?];
          [ clear H
          | let H' := fresh H in
            assert (lo + 1 <= z < hi)%Z as H' by lia; clear H;
            split_range H' ] ]
  end.

Ltac in_range :=
  match goal with
  | H : forall P, forallb P _ = true -> P ?v = true |- ?f ?v = true =>
      apply (H f); reflexivity
  | H : forall P, forallb P _ = true -> P ?v = true
    |- is_int_in ?v ?l = true =>
      apply (H (fun x => is_int_in x l)); reflexivity
  | |- Qle_bool _ _ && Qle_bool _ _ = true =>
      apply Qle_bool_both; assumption
  | H : (_ <= ?z < _)%Z |- context [?z] => split_range H; reflexivity
  | |- _ => reflexivity
  end.

(** C9: for every supported model name and every state of the generator,
    the sampler returns a parameter set, and each of its values lies in
    the range or choice set declared for its name. *)
Theorem sampled_values_in_range (modelname : string) (g : rng) :
  supported modelname = true ->
  exists params,
    fst (randsample_params modelname g) = Ok params /\
    forall k v, In (k, v) params -> in_declared_range k v = true.
Proof.
  unfold supported, randsample_params, rand_bind. intros Hs.
  draws.
  destruct (str_in modelname crossnet_names);
    [|destruct (str_in modelname memnet_names);
      [|destruct (str_in modelname transformer_names); [|discriminate Hs]]].
  all: draws.
  all: unfold rand_ret; cbn [fst]; eexists; (split; [reflexivity|]).
  all: intros key val Hin; cbn [Dict.set String.eqb Ascii.eqb Bool.eqb In] in Hin.
  all: repeat (destruct Hin as [Hin|Hin];
               [injection Hin as <- <-; unfold in_declared_range;
                cbn [String.eqb Ascii.eqb Bool.eqb]|]).
  all: try contradiction.
  all: in_range.
Qed.

(** *** Unknown model names *)

Lemma unsupported_family (modelname : string) :
  supported modelname = false -> grid_family modelname = None.
Proof.
  unfold supported, grid_family. intros H.
  apply orb_false_iff in H as [H H3]. apply orb_false_iff in H as [H1 H2].
  now rewrite H1, H2, H3.
Qed.

Lemma randsample_unsupported (modelname : string) (g : rng) :
  supported modelname = false ->
  fst (randsample_params modelname g) = Raise NotImplementedError.
Proof.
  unfold supported, randsample_params, rand_bind. intros H.
  apply orb_false_iff in H as [H H3]. apply orb_false_iff in H as [H1 H2].
  rewrite H1, H2, H3.
  repeat match goal with
         | |- context [let (_, _) := ?c in _] => destruct c
         end.
  reflexivity.
Qed.

(** C6: for a model name outside the three families the grid generator
    and the random sampler both raise [NotImplementedError]; constructing
    the controller for such a name raises too, before the output file is
    opened or anything is written, so that no sweep can start. *)
Theorem unsupported_model_raises (modelname : string) :
  supported modelname = false ->
  get_param_grid modelname = Raise NotImplementedError
  /\ (forall g, fst (randsample_params modelname g)
                = Raise NotImplementedError)
  /\ (forall wvfp_ rand_ repeat_ cv_ path_ s,
        exists s',
          __init__ modelname wvfp_ rand_ repeat_ cv_ path_ s
          = (Raise (if String.eqb modelname "svm"
                    then ValueError else NotImplementedError), s')
          /\ world s' = world s /\ trace s' = trace s).
Proof.
  intros Hs. split; [|split].
  - unfold get_param_grid. now rewrite unsupported_family.
  - intros g. now apply randsample_unsupported.
  - intros wvfp_ rand_ repeat_ cv_ path_ s. unfold __init__.
    destruct (String.eqb modelname "svm"); [now exists s|].
    unfold bind at 1. cbv beta iota.
    destruct (truthy_rand rand_) eqn:Hr.
    + destruct rand_ as [[|n]|]; try discriminate Hr.
      unfold bind at 1. cbn [sample_many]. unfold bind at 1.
      unfold call_randsample_params at 1.
      pose proof (@randsample_unsupported modelname (entropy s) Hs) as Hraise.
      destruct (randsample_params modelname (entropy s)) as [r g].
      cbn [fst] in Hraise. subst r.
      eexists. split; [reflexivity|]. split; reflexivity.
    + unfold bind at 1, lift_result, get_param_grid.
      rewrite unsupported_family by assumption.
      exists s. repeat split; reflexivity.
Qed.


(** *** Steps of the sweep *)

Lemma bind_inv {A B} (m : M A) (f : A -> M B) s r s' :
  bind m f s = (r, s') ->
  (exists a s1, m s = (Ok a, s1) /\ f a s1 = (r, s'))
  \/ (exists e, m s = (Raise e, s') /\ r = Raise e).
Proof.
  unfold bind. destruct (m s) as [[a|e] s1]; intros H.
  - left. now exists a, s1.
  - right. exists e. now inversion H.
Qed.

Lemma writerow_inv names closed row s r s' :
  writerow names closed row s = (r, s') ->
  (wrong_fields names row = [] /\ closed = false /\ r = Ok tt
   /\ trace s' = trace s ++ [EWrite (csv_line names row)])
  \/ ((wrong_fields names row <> [] \/ closed = true)
      /\ r = Raise ValueError /\ s' = s).
Proof.
  unfold writerow, raise, emit.
  destruct (wrong_fields names row) as [|k ks] eqn:Hw.
  - destruct closed; intros H; inversion H; subst.
    + right. auto.
    + left. auto.
  - intros H. inversion H. subst. right. split; [left; discriminate|auto].
Qed.

Lemma fixed_call_trace gs d profile params s r s' :
  fixed_call gs d profile params s = (r, s') ->
  trace s' = trace s ++ [train_event d profile params r].
Proof.
  unfold fixed_call, train_event, call_run_fixed_fast.
  destruct (truthy_opt profile);
    match goal with
    | |- context [run_fixed_fast ?a ?b ?c ?d ?e ?f ?g ?h ?w] =>
        destruct (run_fixed_fast a b c d e f g h w)
    end; intros H; inversion H; reflexivity.
Qed.

Lemma xval_call_trace gs d profile params s r s' :
  xval_call gs d profile params s = (r, s') ->
  trace s' = trace s ++ [xval_event gs d profile params r].
Proof.
  unfold xval_call, xval_event, call_run_xval.
  destruct (truthy_opt profile);
    match goal with
    | |- context [run_xval ?a ?b ?c ?d ?e ?f ?g ?w] =>
        destruct (run_xval a b c d e f g w)
    end; intros H; inversion H; reflexivity.
Qed.

Lemma repeat_append_fixed gs d profile params n :
  forall acc s r s',
    repeat_append n (fixed_call gs d profile params) acc s = (r, s') ->
    exists l,
      let calls := map (fun q => train_event d profile params (Ok q)) l in
      (r = Ok (acc ++ l) /\ List.length l = n
       /\ trace s' = trace s ++ calls)
      \/ (exists e, r = Raise e /\ List.length l < n
          /\ trace s' = trace s ++ calls
                        ++ [train_event d profile params (Raise e)]).
Proof.
  induction n as [|n IH]; intros acc s r s' H; cbn [repeat_append] in H.
  - inversion H. subst. exists []. left.
    cbn. now rewrite !app_nil_r.
  - apply bind_inv in H as [(q & s1 & Hcall & Hrest)|(e & Hcall & ->)].
    + apply fixed_call_trace in Hcall.
      apply IH in Hrest as (l & Hl). exists (q :: l).
      cbn [map List.length]. cbn zeta in Hl.
      destruct Hl as [(-> & Hlen & Ht)|(e & -> & Hlen & Ht)].
      * left. rewrite <- app_assoc. cbn [app].
        repeat split; [lia|]. rewrite Ht, Hcall, <- app_assoc. reflexivity.
      * right. exists e. repeat split; [lia|].
        rewrite Ht, Hcall, <- !app_assoc. reflexivity.
    + apply fixed_call_trace in Hcall. exists []. right. exists e.
      cbn. repeat split; [lia|assumption].
Qed.

Lemma result2csvrow_block gs acq p evs fmacro_list s r s' :
  acq (Dict.get "profile" p) (Dict.remove "profile" p) evs
      (Ok fmacro_list) ->
  _result2csvrow gs (Dict.remove "profile" p) fmacro_list s = (r, s') ->
  exists evs', trace s' = trace s ++ evs'
               /\ block gs acq p (evs ++ evs') r.
Proof.
  intros Hacq H. unfold _result2csvrow in H.
  apply writerow_inv in H
      as [(Hw & Hc & -> & Ht)|(Hbad & -> & ->)].
  - eexists. split; [exact Ht|]. now apply block_row.
  - exists []. rewrite !app_nil_r. split; [reflexivity|].
    now apply block_write_raises with (fmacro_list := fmacro_list).
Qed.

Lemma fixed_body_block gs d p s r s' :
  snd (fixed_body gs d p) s = (r, s') ->
  exists evs, trace s' = trace s ++ evs
              /\ block gs (acq_fixed gs d) p evs r.
Proof.
  unfold fixed_body, filter_useless_combs, Dict.pop. cbn [snd]. intros H.
  apply bind_inv in H as [(l & s1 & Hrep & Hrow)|(e & Hrep & ->)].
  - apply repeat_append_fixed in Hrep as (l' & Hl). cbn zeta in Hl.
    destruct Hl as [(Hl & Hlen & Ht)|(e & He & _)]; [|discriminate He].
    injection Hl as ->. cbn [app] in Hrow.
    eapply result2csvrow_block with (acq := acq_fixed gs d) in Hrow
        as (evs' & Ht' & Hb).
    + eexists. split; [|exact Hb]. rewrite Ht', Ht, app_assoc. reflexivity.
    + exists l'. left. auto.
  - apply repeat_append_fixed in Hrep as (l' & Hl). cbn zeta in Hl.
    destruct Hl as [(Hl & _)|(e' & He & Hlen & Ht)]; [discriminate Hl|].
    injection He as <-. eexists. split; [exact Ht|].
    apply block_call_raises. exists l'. right. exists e. auto.
Qed.

Lemma xval_body_block gs d p s r s' :
  snd (xval_body gs d p) s = (r, s') ->
  exists evs, trace s' = trace s ++ evs
              /\ block gs (acq_xval gs d) p evs r.
Proof.
  unfold xval_body, filter_useless_combs, Dict.pop. cbn [snd]. intros H.
  apply bind_inv in H as [(l & s1 & Hcall & Hrow)|(e & Hcall & ->)].
  - apply xval_call_trace in Hcall.
    eapply result2csvrow_block with (acq := acq_xval gs d) in Hrow
        as (evs' & Ht' & Hb).
    + eexists. split; [|exact Hb]. rewrite Ht', Hcall, app_assoc.
      reflexivity.
    + reflexivity.
  - apply xval_call_trace in Hcall. eexists. split; [exact Hcall|].
    apply block_call_raises. reflexivity.
Qed.

Lemma for_each_blocks gs acq (body : dict -> dict * M unit) :
  (forall p, fst (body p) = Dict.remove "profile" p) ->
  (forall p s r s',
      snd (body p) s = (r, s') ->
      exists evs, trace s' = trace s ++ evs /\ block gs acq p evs r) ->
  forall ps s r grid s',
    for_each body ps s = (r, grid, s') ->
    exists bs, trace s' = trace s ++ List.concat bs
               /\ blocks gs acq ps bs r grid.
Proof.
  intros Hfst Hsnd. induction ps as [|p ps IH]; intros s r grid s' H.
  - cbn in H. inversion H. subst. exists [].
    cbn. rewrite app_nil_r. split; [reflexivity|constructor].
  - cbn [for_each] in H. specialize (Hfst p). specialize (Hsnd p s).
    destruct (body p) as [p' run]. cbn [fst snd] in *. subst p'.
    destruct (run s) as [[[]|e] s1] eqn:Hrun.
    + destruct (Hsnd _ _ eq_refl) as (evs & Ht & Hb).
      destruct (for_each body ps s1) as [[r2 rest] s2] eqn:Hloop.
      inversion H. subst. apply IH in Hloop as (bs & Ht2 & Hbs).
      exists (evs :: bs). cbn [List.concat].
      split; [now rewrite Ht2, Ht, app_assoc|].
      now apply blocks_next.
    + destruct (Hsnd _ _ eq_refl) as (evs & Ht & Hb).
      inversion H. subst. exists [evs]. cbn [List.concat].
      rewrite app_nil_r. split; [assumption|]. now apply blocks_stop.
Qed.


Lemma call_load_data_trace fp profile s r s' :
  call_load_data fp profile s = (r, s') ->
  trace s' = trace s ++ [ELoad fp profile].
Proof.
  unfold call_load_data. destruct (load_data fp profile (world s)).
  intros H. inversion H. reflexivity.
Qed.

Lemma load_fixed_trace trainfp testfp s r s' :
  load_fixed trainfp testfp s = (r, s') ->
  exists evs,
    trace s' = trace s ++ evs /\ Forall is_load evs
    /\ (forall d, r = Ok d ->
          evs = [ELoad trainfp false; ELoad trainfp true;
                 ELoad testfp false; ELoad testfp true]).
Proof.
  unfold load_fixed. intros H.
  repeat match type of H with
         | bind _ _ _ = _ =>
             let H1 := fresh "Hl" in
             apply bind_inv in H as [(? & ? & H1 & H)|(? & H1 & ->)];
             apply call_load_data_trace in H1
         end.
  1: inversion H; subst.
  all: eexists; split;
    [repeat match goal with
            | Ht : trace ?a = trace _ ++ _ |- context [trace ?a] =>
                rewrite Ht; clear Ht
            end; rewrite <- ?app_assoc; cbn [app]; reflexivity|].
  all: split; [repeat constructor|].
  all: intros d Hd; first [discriminate Hd | reflexivity].
Qed.

Lemma load_xval_trace datafp s r s' :
  load_xval datafp s = (r, s') ->
  exists evs,
    trace s' = trace s ++ evs /\ Forall is_load evs
    /\ (forall d, r = Ok d ->
          evs = [ELoad datafp false; ELoad datafp true]).
Proof.
  unfold load_xval. intros H.
  repeat match type of H with
         | bind _ _ _ = _ =>
             let H1 := fresh "Hl" in
             apply bind_inv in H as [(? & ? & H1 & H)|(? & H1 & ->)];
             apply call_load_data_trace in H1
         end.
  1: inversion H; subst.
  all: eexists; split;
    [repeat match goal with
            | Ht : trace ?a = trace _ ++ _ |- context [trace ?a] =>
                rewrite Ht; clear Ht
            end; rewrite <- ?app_assoc; cbn [app]; reflexivity|].
  all: split; [repeat constructor|].
  all: intros d Hd; first [discriminate Hd | reflexivity].
Qed.

(** Shape of a run of [fixed]. *)
Lemma fixed_shape gs trainfp testfp s r gs' s' :
  fixed gs trainfp testfp s = (r, gs', s') ->
  let tr := path_join (path gs) trainfp in
  let te := path_join (path gs) testfp in
  (exists e evs, r = Raise e /\ gs' = gs
                 /\ trace s' = trace s ++ evs /\ Forall is_load evs)
  \/ (exists d s1 bs,
        load_fixed tr te s = (Ok d, s1)
        /\ blocks gs (acq_fixed gs d) (param_grid gs) bs r (param_grid gs')
        /\ trace s' = trace s
                      ++ [ELoad tr false; ELoad tr true;
                          ELoad te false; ELoad te true]
                      ++ List.concat bs ++ closing r).
Proof.
  intros H. cbv zeta. unfold fixed in H.
  set (tr := path_join (path gs) trainfp) in *.
  set (te := path_join (path gs) testfp) in *.
  destruct (load_fixed tr te s) as [[d|e] s1] eqn:Hload.
  - right.
    destruct (for_each (fixed_body gs d) (param_grid gs) s1)
      as [[r1 grid] s2] eqn:Hloop.
    apply for_each_blocks with (gs := gs) (acq := acq_fixed gs d) in Hloop
        as (bs & Ht & Hbs);
      [|reflexivity|apply fixed_body_block].
    apply load_fixed_trace in Hload as Hl.
    destruct Hl as (evs & Ht1 & _ & Hevs). specialize (Hevs d eq_refl).
    subst evs. exists d, s1, bs. split; [reflexivity|].
    destruct r1 as [[]|e]; inversion H; subst; cbn [param_grid with_param_grid
      with_closed trace closing]; (split; [assumption|]).
    + rewrite Ht, Ht1, <- !app_assoc. reflexivity.
    + rewrite Ht, Ht1, app_nil_r, <- !app_assoc. reflexivity.
  - left. inversion H. subst.
    apply load_fixed_trace in Hload as (evs & Ht & Hf & _).
    now exists e, evs.
Qed.

(** Shape of a run of [xval]. *)
Lemma xval_shape gs datafp s r gs' s' :
  xval gs datafp s = (r, gs', s') ->
  let fp := path_join (path gs) datafp in
  (exists e evs, r = Raise e /\ gs' = gs
                 /\ trace s' = trace s ++ evs /\ Forall is_load evs)
  \/ (exists d s1 bs,
        load_xval fp s = (Ok d, s1)
        /\ blocks gs (acq_xval gs d) (param_grid gs) bs r (param_grid gs')
        /\ trace s' = trace s
                      ++ [ELoad fp false; ELoad fp true]
                      ++ List.concat bs ++ closing r).
Proof.
  intros H. cbv zeta. unfold xval in H.
  set (fp := path_join (path gs) datafp) in *.
  destruct (load_xval fp s) as [[d|e] s1] eqn:Hload.
  - right.
    destruct (for_each (xval_body gs d) (param_grid gs) s1)
      as [[r1 grid] s2] eqn:Hloop.
    apply for_each_blocks with (gs := gs) (acq := acq_xval gs d) in Hloop
        as (bs & Ht & Hbs);
      [|reflexivity|apply xval_body_block].
    apply load_xval_trace in Hload as Hl.
    destruct Hl as (evs & Ht1 & _ & Hevs). specialize (Hevs d eq_refl).
    subst evs. exists d, s1, bs. split; [reflexivity|].
    destruct r1 as [[]|e]; inversion H; subst; cbn [param_grid with_param_grid
      with_closed trace closing]; (split; [assumption|]).
    + rewrite Ht, Ht1, <- !app_assoc. reflexivity.
    + rewrite Ht, Ht1, app_nil_r, <- !app_assoc. reflexivity.
  - left. inversion H. subst.
    apply load_xval_trace in Hload as (evs & Ht & Hf & _).
    now exists e, evs.
Qed.


(** *** What the blocks of a loop write and which calls raise *)

Lemma written_app a b : written (a ++ b) = written a ++ written b.
Proof. apply flat_map_app. Qed.

Lemma written_returned evs : Forall returned evs -> written evs = [].
Proof.
  induction 1 as [|ev evs [Hc _] _ IH]; [reflexivity|].
  unfold written in *.
  destruct ev; try contradiction; cbn [flat_map app]; exact IH.
Qed.

Lemma written_loads evs : Forall is_load evs -> written evs = [].
Proof.
  induction 1 as [|ev evs Hc _ IH]; [reflexivity|].
  unfold written in *.
  destruct ev; try contradiction; cbn [flat_map app]; exact IH.
Qed.

Lemma returned_quiet evs :
  Forall returned evs -> Forall (fun ev => raised ev = None) evs.
Proof. apply Forall_impl. now intros ev [_ H]. Qed.

Lemma loads_quiet evs :
  Forall is_load evs -> Forall (fun ev => raised ev = None) evs.
Proof.
  apply Forall_impl. intros ev H. destruct ev; try contradiction; reflexivity.
Qed.

Section BlockFacts.

Variable gs : GridSearch.
Variable acq :
  option value -> dict -> list event -> result (list Q) -> Prop.
Hypothesis acq_calls : call_like acq.

Lemma block_ok p evs :
  block gs acq p evs (Ok tt) ->
  Forall (fun ev => raised ev = None) evs
  /\ exists l, written evs =
               [csv_line (fieldnames gs)
                  (result_row (Dict.remove "profile" p) l)].
Proof.
  inversion 1 as [evs0 l Hacq Hw Hc| |]; subst.
  apply acq_calls in Hacq. split.
  - apply Forall_app. split; [now apply returned_quiet|].
    repeat constructor.
  - exists l. rewrite written_app, written_returned by assumption.
    reflexivity.
Qed.

Lemma block_raise p evs e :
  block gs acq p evs (Raise e) ->
  written evs = []
  /\ (Forall (fun ev => raised ev = None) evs
      \/ exists evs0 ev,
           evs = evs0 ++ [ev]
           /\ Forall (fun x => raised x = None) evs0
           /\ raised ev = Some e).
Proof.
  inversion 1 as [|evs0 e0 Hacq|evs0 l Hacq Hbad]; subst.
  - apply acq_calls in Hacq as (evs0 & ev & -> & Hret & Hcall & Hr).
    split.
    + rewrite written_app, written_returned by assumption.
      destruct ev; try contradiction; reflexivity.
    + right. exists evs0, ev. auto using returned_quiet.
  - apply acq_calls in Hacq. split.
    + now apply written_returned.
    + left. now apply returned_quiet.
Qed.

Lemma blocks_facts ps bs r grid :
  blocks gs acq ps bs r grid ->
  Forall (data_line gs) (written (List.concat bs))
  /\ match r with
     | Ok _ =>
         List.length (written (List.concat bs)) = List.length ps
         /\ grid = map (Dict.remove "profile") ps
         /\ Forall (fun ev => raised ev = None) (List.concat bs)
     | Raise e =>
         exists pre p post,
           ps = pre ++ p :: post
           /\ grid = map (Dict.remove "profile") pre
                     ++ Dict.remove "profile" p :: post
           /\ List.length (written (List.concat bs)) = List.length pre
           /\ (Forall (fun ev => raised ev = None) (List.concat bs)
               \/ exists evs0 ev,
                    List.concat bs = evs0 ++ [ev]
                    /\ Forall (fun x => raised x = None) evs0
                    /\ raised ev = Some e)
     end.
Proof.
  induction 1 as [|p ps evs bs r grid Hb Hbs [IHl IHr]|p ps evs e Hb].
  - split; [constructor|]. repeat split; constructor.
  - apply block_ok in Hb as (Hq & l & Hw). cbn [List.concat].
    rewrite written_app, Hw. split.
    + constructor; [now exists p, l|assumption].
    + destruct r as [[]|e].
      * destruct IHr as (Hlen & -> & Hquiet). cbn [app List.length map].
        repeat split; [now rewrite Hlen|].
        apply Forall_app. auto.
      * destruct IHr as (pre & q & post & -> & -> & Hlen & Hlast).
        exists (p :: pre), q, post. cbn [app List.length map].
        repeat split; [now rewrite Hlen|].
        destruct Hlast as [Hquiet|(evs0 & ev & Heq & Hquiet & Hr)].
        -- left. apply Forall_app. auto.
        -- right. exists (evs ++ evs0), ev. rewrite Heq, app_assoc.
           repeat split; [|assumption]. apply Forall_app. auto.
  - apply block_raise in Hb as (Hw & Hlast). cbn [List.concat].
    rewrite app_nil_r, Hw. split; [constructor|].
    exists [], p, ps. cbn [app map List.length]. auto.
Qed.

End BlockFacts.

Lemma acq_fixed_calls gs d : call_like (acq_fixed gs d).
Proof.
  intros profile params evs r (l & Hl). cbn zeta in Hl.
  assert (Hret : Forall returned
                   (map (fun q => train_event d profile params (Ok q)) l)).
  { apply Forall_forall. intros ev Hin. apply in_map_iff in Hin as (q & <- & _).
    unfold train_event. destruct (truthy_opt profile); split; easy. }
  destruct Hl as [(-> & _ & ->)|(e & -> & _ & ->)]; [assumption|].
  eexists _, _. split; [reflexivity|]. split; [assumption|].
  unfold train_event. destruct (truthy_opt profile); split; easy.
Qed.

Lemma acq_xval_calls gs d : call_like (acq_xval gs d).
Proof.
  intros profile params evs r ->. unfold xval_event.
  destruct r as [l|e].
  - repeat constructor; destruct (truthy_opt profile); easy.
  - exists [], (xval_event gs d profile params (Raise e)).
    unfold xval_event.
    destruct (truthy_opt profile); repeat split; easy.
Qed.


(** *** Dictionaries *)

Lemma get_set {V} (k k' : string) (v : V) (d : Dict.t V) :
  Dict.get k (Dict.set k' v d)
  = if String.eqb k k' then Some v else Dict.get k d.
Proof.
  induction d as [|[k1 v1] d IH]; cbn [Dict.set Dict.get].
  - reflexivity.
  - destruct (String.eqb k' k1) eqn:E1; cbn [Dict.get].
    + apply String.eqb_eq in E1 as ->.
      destruct (String.eqb k k1); reflexivity.
    + rewrite IH. destruct (String.eqb k k') eqn:E; [|reflexivity].
      apply String.eqb_eq in E as ->. now rewrite E1.
Qed.

Lemma get_remove {V} (k k' : string) (d : Dict.t V) :
  Dict.get k (Dict.remove k' d)
  = if String.eqb k k' then None else Dict.get k d.
Proof.
  unfold Dict.remove.
  induction d as [|[k1 v1] d IH]; cbn [filter Dict.get fst].
  - now destruct (String.eqb k k').
  - destruct (String.eqb k' k1) eqn:E1; cbn [negb Dict.get].
    + rewrite IH. apply String.eqb_eq in E1 as ->.
      now destruct (String.eqb k k1).
    + rewrite IH. destruct (String.eqb k k') eqn:E; [|reflexivity].
      apply String.eqb_eq in E as ->. now rewrite E1.
Qed.

Lemma get_update_none {V} (k : string) (e d : Dict.t V) :
  Dict.get k e = None -> Dict.get k (Dict.update d e) = Dict.get k d.
Proof.
  unfold Dict.update. revert d.
  induction e as [|[k1 v1] e IH]; intros d H; cbn [fold_left fst snd].
  - reflexivity.
  - cbn [Dict.get] in H. destruct (String.eqb k k1) eqn:E; [discriminate|].
    rewrite IH by assumption. now rewrite get_set, E.
Qed.

Lemma mem_set {V} (k k' : string) (v : V) (d : Dict.t V) :
  Dict.mem k (Dict.set k' v d) = String.eqb k k' || Dict.mem k d.
Proof.
  unfold Dict.mem. rewrite get_set. now destruct (String.eqb k k').
Qed.

Lemma mem_cons {V} (k k' : string) (v : V) (d : Dict.t V) :
  Dict.mem k ((k', v) :: d) = String.eqb k k' || Dict.mem k d.
Proof.
  unfold Dict.mem. cbn [Dict.get]. now destruct (String.eqb k k').
Qed.

Lemma mem_update {V} (k : string) (e d : Dict.t V) :
  Dict.mem k (Dict.update d e) = Dict.mem k d || Dict.mem k e.
Proof.
  unfold Dict.update. revert d.
  induction e as [|[k1 v1] e IH]; intros d; cbn [fold_left fst snd].
  - now rewrite orb_false_r.
  - rewrite IH, mem_set, mem_cons.
    destruct (String.eqb k k1), (Dict.mem k d); reflexivity.
Qed.

Lemma mem_keys {V} (k : string) (d : Dict.t V) :
  Dict.mem k d = str_in k (Dict.keys d).
Proof.
  induction d as [|[k1 v1] d IH]; [reflexivity|].
  rewrite mem_cons, IH. reflexivity.
Qed.

Lemma mem_false_get {V} (k : string) (d : Dict.t V) :
  Dict.mem k d = false -> Dict.get k d = None.
Proof. unfold Dict.mem. now destruct (Dict.get k d). Qed.

Lemma str_in_In (k : string) (l : list string) :
  str_in k l = true <-> In k l.
Proof.
  unfold str_in. rewrite existsb_exists. split.
  - intros (x & Hin & E). apply String.eqb_eq in E. now subst.
  - intros H. exists k. split; [assumption|apply String.eqb_refl].
Qed.

Lemma str_in_app (k : string) (l1 l2 : list string) :
  str_in k (l1 ++ l2) = str_in k l1 || str_in k l2.
Proof. apply existsb_app. Qed.

Lemma filter_nil_iff {A} (f : A -> bool) (l : list A) :
  filter f l = [] <-> forall x, In x l -> f x = false.
Proof.
  induction l as [|a l IH]; cbn [filter In].
  - split; [intros _ x []|reflexivity].
  - destruct (f a) eqn:E.
    + split; [discriminate|]. intros H.
      specialize (H a (or_introl eq_refl)). congruence.
    + rewrite IH. split.
      * intros H x [<-|Hx]; auto.
      * intros H x Hx. auto.
Qed.

(** No field is wrong exactly when every key of the row is a field name. *)
Lemma wrong_fields_nil names (row : dict) :
  wrong_fields names row = []
  <-> forall k, Dict.mem k row = true -> str_in k names = true.
Proof.
  unfold wrong_fields. rewrite filter_nil_iff. split.
  - intros H k Hk. rewrite mem_keys in Hk. apply str_in_In in Hk.
    apply H in Hk. now apply negb_false_iff in Hk.
  - intros H k Hk. apply negb_false_iff. apply H.
    rewrite mem_keys. now apply str_in_In.
Qed.

(** *** The header and the names of the score columns *)

Lemma str_of_nat_inj (n m : nat) : str_of_nat n = str_of_nat m -> n = m.
Proof.
  unfold str_of_nat. intros H.
  apply (f_equal NilEmpty.uint_of_string) in H.
  rewrite !NilEmpty.usu in H. injection H as H.
  now apply DecimalNat.Unsigned.to_uint_inj.
Qed.

Lemma fmacro_key_inj (i j : nat) : fmacro_key i = fmacro_key j -> i = j.
Proof.
  unfold fmacro_key. cbn [String.append]. intros H.
  injection H as H. apply str_of_nat_inj in H. lia.
Qed.

Lemma fmacro_key_eqb (i j : nat) :
  String.eqb (fmacro_key i) (fmacro_key j) = Nat.eqb i j.
Proof.
  destruct (Nat.eqb i j) eqn:E.
  - apply Nat.eqb_eq in E as ->. apply String.eqb_refl.
  - apply String.eqb_neq. intros H. apply fmacro_key_inj in H.
    apply Nat.eqb_neq in E. contradiction.
Qed.

Lemma fmacro_key_prefix (i : nat) :
  String.prefix "fmacro_" (fmacro_key i) = true.
Proof. unfold fmacro_key. now destruct (str_of_nat (i + 1)). Qed.

Lemma fmacro_key_not_stat (i : nat) :
  str_in (fmacro_key i) ["fmacro_avg"; "fmacro_std"] = false.
Proof.
  unfold str_in, existsb.
  assert (H : forall t, NilEmpty.uint_of_string t = None ->
                        String.eqb (fmacro_key i) ("fmacro_" ++ t) = false).
  { intros t Ht. apply String.eqb_neq. unfold fmacro_key.
    cbn [String.append]. intros H. injection H as H.
    unfold str_of_nat in H. rewrite <- H, NilEmpty.usu in Ht.
    discriminate Ht. }
  change "fmacro_avg" with ("fmacro_" ++ "avg")%string.
  change "fmacro_std" with ("fmacro_" ++ "std")%string.
  now rewrite !H.
Qed.

Lemma plain_not_fmacro (p : dict) (i : nat) :
  plain_keys p = true -> Dict.mem (fmacro_key i) p = false.
Proof.
  unfold plain_keys. intros H. rewrite mem_keys.
  destruct (str_in (fmacro_key i) (Dict.keys p)) eqn:E; [|reflexivity].
  apply str_in_In in E. rewrite forallb_forall in H. apply H in E.
  now rewrite fmacro_key_prefix in E.
Qed.


Lemma get_header_dict (names : list string) (k : string) :
  forall acc : dict,
    Dict.get k (fold_left (fun acc k => Dict.set k (VStr k) acc) names acc)
    = if str_in k names then Some (VStr k) else Dict.get k acc.
Proof.
  unfold str_in.
  induction names as [|k1 ns IH]; intros acc; cbn [fold_left existsb].
  - reflexivity.
  - rewrite IH, get_set. destruct (String.eqb k k1) eqn:E.
    + apply String.eqb_eq in E as ->.
      now destruct (existsb (String.eqb k1) ns).
    + reflexivity.
Qed.

(** [writeheader] on an open file writes the field names and cannot
    fail. *)
Lemma writeheader_ok (names : list string) (s : state) :
  writeheader names false s
  = (Ok tt, mkState (world s) (entropy s)
                    (trace s ++ [EWrite (map VStr names)])).
Proof.
  unfold writeheader, writerow.
  set (hd := fold_left (fun acc k => Dict.set k (VStr k) acc) names []).
  assert (Hw : wrong_fields names hd = []).
  { apply wrong_fields_nil. intros k. unfold Dict.mem, hd.
    rewrite get_header_dict. now destruct (str_in k names). }
  assert (Hl : csv_line names hd = map VStr names).
  { unfold csv_line. apply map_ext_in. intros k Hk. unfold hd.
    rewrite get_header_dict.
    apply str_in_In in Hk. now rewrite Hk. }
  rewrite Hw, Hl. reflexivity.
Qed.

Lemma sample_many_inv (model_ : string) (n : nat) :
  forall s r s',
    sample_many model_ n s = (r, s') ->
    world s' = world s /\ trace s' = trace s
    /\ forall grid, r = Ok grid ->
         List.length grid = n
         /\ Forall (fun p => exists g,
                        fst (randsample_params model_ g) = Ok p) grid.
Proof.
  induction n as [|n IH]; intros s r s' H; cbn [sample_many] in H.
  - inversion H. subst. split; [reflexivity|split; [reflexivity|]].
    intros grid Hg. inversion Hg. split; [reflexivity|constructor].
  - apply bind_inv in H as [(p & s1 & Hp & H)|(e & Hp & ->)].
    + unfold call_randsample_params in Hp.
      destruct (randsample_params model_ (entropy s)) as [rp g] eqn:Hs.
      inversion Hp. subst. clear Hp.
      apply bind_inv in H as [(ps & s2 & Hps & H)|(e & Hps & ->)].
      * apply IH in Hps as (Hw & Ht & Hgrid). inversion H. subst.
        cbn [world trace] in *.
        split; [assumption|split; [assumption|]].
        intros grid Hg. inversion Hg. subst.
        destruct (Hgrid ps eq_refl) as [Hlen Hall]. split.
        -- cbn [List.length]. now rewrite Hlen.
        -- constructor; [|assumption]. exists (entropy s). now rewrite Hs.
      * apply IH in Hps as (Hw & Ht & _). cbn [world trace] in *.
        split; [assumption|split; [assumption|]].
        intros grid Hg. discriminate Hg.
    + unfold call_randsample_params in Hp.
      destruct (randsample_params model_ (entropy s)) as [rp g].
      inversion Hp. subst. cbn [world trace].
      split; [reflexivity|split; [reflexivity|]].
      intros grid Hg. discriminate Hg.
Qed.

(** What a successful construction has done. *)
Lemma init_inv model_ wvfp_ rand_ repeat_ cv_ path_ s gs s' :
  __init__ model_ wvfp_ rand_ repeat_ cv_ path_ s = (Ok gs, s') ->
  model gs = model_ /\ repeat gs = repeat_ /\ cv gs = cv_
  /\ rand gs = rand_ /\ path gs = path_ /\ csv_closed gs = false
  /\ generated model_ rand_ (param_grid gs)
  /\ exists first rest,
       param_grid gs = first :: rest
       /\ fieldnames gs = header_of first repeat_
       /\ trace s' = trace s ++ [EOpen (basename gs ++ ".csv")%string;
                                 EWrite (map VStr (fieldnames gs))].
Proof.
  unfold __init__. destruct (String.eqb model_ "svm"); [discriminate|].
  intros H.
  apply bind_inv in H as [(date & s1 & Hd & H)|(e & _ & He)];
    [|discriminate He].
  inversion Hd. subst s1. clear Hd.
  apply bind_inv in H as [(grid & s2 & Hg & H)|(e & _ & He)];
    [|discriminate He].
  assert (Hgen : generated model_ rand_ grid /\ trace s2 = trace s).
  { unfold generated. destruct (truthy_rand rand_).
    - apply sample_many_inv in Hg as (_ & Ht & Hgrid).
      split; [apply (Hgrid grid eq_refl)|assumption].
    - unfold lift_result in Hg. inversion Hg. now subst. }
  destruct Hgen as [Hgen Ht2]. clear Hg.
  apply bind_inv in H as [([] & s3 & Ho & H)|(e & _ & He)];
    [|discriminate He].
  unfold emit in Ho. inversion Ho. subst s3. clear Ho.
  apply bind_inv in H as [(first & s4 & Hf & H)|(e & _ & He)];
    [|discriminate He].
  destruct grid as [|p rest]; [discriminate Hf|].
  inversion Hf. subst. clear Hf.
  cbv zeta in H. unfold bind in H. rewrite writeheader_ok in H.
  unfold ret in H. inversion H. subst. cbn [model repeat cv rand path csv_closed param_grid
                           fieldnames basename trace].
  repeat split; try assumption.
  exists first, rest. repeat split.
  rewrite Ht2, <- app_assoc. reflexivity.
Qed.


(** *** The names in the parameter sets *)

Lemma product_dicts_keys items p :
  In p (product_dicts items) -> Dict.keys p = map fst items.
Proof.
  revert p. induction items as [|[k vs] rest IH]; intros p Hin.
  - destruct Hin as [<-|[]]. reflexivity.
  - cbn [product_dicts] in Hin. apply in_flat_map in Hin as (v & _ & Hin).
    apply in_map_iff in Hin as (q & <- & Hq).
    unfold Dict.keys in *. cbn [map fst]. f_equal. now apply IH.
Qed.

Lemma grid_family_keys modelname extra :
  grid_family modelname = Some extra ->
  let names := map fst (sorted_items (Dict.update grid_base extra)) in
  str_in "profile" names = true
  /\ forallb (fun k => negb (String.prefix "fmacro_" k)) names = true.
Proof.
  unfold grid_family. intros H.
  destruct (str_in modelname crossnet_names);
    [|destruct (str_in modelname memnet_names);
      [|destruct (str_in modelname transformer_names); [|discriminate H]]].
  all: injection H as <-; vm_compute; split; reflexivity.
Qed.

Lemma grid_keys modelname grid p :
  get_param_grid modelname = Ok grid -> In p grid ->
  Dict.mem "profile" p = true /\ plain_keys p = true.
Proof.
  unfold get_param_grid. intros Hg Hin.
  destruct (grid_family modelname) as [extra|] eqn:Hf; [|discriminate Hg].
  apply grid_family_keys in Hf. cbv zeta in Hf.
  set (d := Dict.update grid_base extra) in *.
  injection Hg as <-. unfold ParameterGrid in Hin.
  apply product_dicts_keys in Hin.
  unfold plain_keys. rewrite mem_keys, Hin. exact Hf.
Qed.

Lemma sample_keys modelname g p :
  fst (randsample_params modelname g) = Ok p ->
  Dict.mem "profile" p = true /\ plain_keys p = true.
Proof.
  unfold randsample_params, rand_bind, rand_ret.
  repeat match goal with
         | |- context [let (_, _) := ?c in _] => destruct c
         end.
  destruct (str_in modelname crossnet_names);
    [|destruct (str_in modelname memnet_names);
      [|destruct (str_in modelname transformer_names)]].
  all: repeat match goal with
              | |- context [let (_, _) := ?c in _] => destruct c
              end.
  all: cbn [fst]; intros H; first [discriminate H | injection H as <-].
  all: split; vm_compute; reflexivity.
Qed.

Lemma generated_keys model_ rand_ grid :
  generated model_ rand_ grid ->
  Forall (fun p => Dict.mem "profile" p = true /\ plain_keys p = true) grid.
Proof.
  unfold generated. destruct (truthy_rand rand_); intros H.
  - eapply Forall_impl; [|exact H]. intros p (g & Hp).
    now apply sample_keys in Hp.
  - apply Forall_forall. intros p Hin. eapply grid_keys; eassumption.
Qed.


(** *** The fields of a result row *)

Lemma score_fields_fold (l : list Q) :
  score_fields l
  = fold_left add_score (combine (seq 0 (List.length l)) l) [].
Proof. reflexivity. Qed.

Lemma mem_add_scores (k : string) (xs : list (nat * Q)) :
  forall acc,
    Dict.mem k (fold_left add_score xs acc)
    = Dict.mem k acc
      || existsb (fun i => String.eqb k (fmacro_key i)) (map fst xs).
Proof.
  induction xs as [|[i v] xs IH]; intros acc; cbn [fold_left map existsb fst].
  - now rewrite orb_false_r.
  - rewrite IH. unfold add_score. cbn [fst snd]. rewrite mem_set.
    now destruct (String.eqb k (fmacro_key i)), (Dict.mem k acc).
Qed.

Lemma map_fst_combine {A B} (l1 : list A) (l2 : list B) :
  List.length l1 = List.length l2 -> map fst (combine l1 l2) = l1.
Proof.
  revert l2. induction l1 as [|a l1 IH]; intros [|b l2] H;
    try discriminate H; [reflexivity|].
  cbn [combine map fst]. f_equal. apply IH. now injection H.
Qed.

Lemma mem_score_fields (k : string) (l : list Q) :
  Dict.mem k (score_fields l)
  = existsb (fun i => String.eqb k (fmacro_key i)) (seq 0 (List.length l)).
Proof.
  rewrite score_fields_fold, mem_add_scores, map_fst_combine.
  - reflexivity.
  - apply length_seq.
Qed.

Lemma mem_fmacro_score_fields (j : nat) (l : list Q) :
  Dict.mem (fmacro_key j) (score_fields l) = Nat.ltb j (List.length l).
Proof.
  rewrite mem_score_fields.
  destruct (Nat.ltb j (List.length l)) eqn:E.
  - apply Nat.ltb_lt in E. apply existsb_exists. exists j. split.
    + apply in_seq. lia.
    + apply String.eqb_refl.
  - apply Nat.ltb_ge in E.
    destruct (existsb _ _) eqn:Ex; [|reflexivity].
    apply existsb_exists in Ex as (i & Hin & Hi).
    apply in_seq in Hin. rewrite fmacro_key_eqb in Hi.
    apply Nat.eqb_eq in Hi. lia.
Qed.

Lemma mem_plain_score_fields (k : string) (l : list Q) :
  String.prefix "fmacro_" k = false -> Dict.mem k (score_fields l) = false.
Proof.
  intros Hk. rewrite mem_score_fields.
  destruct (existsb _ _) eqn:Ex; [|reflexivity].
  apply existsb_exists in Ex as (i & _ & Hi).
  apply String.eqb_eq in Hi. subst k.
  now rewrite fmacro_key_prefix in Hk.
Qed.

(** Membership in a result row: a score column, one of the two
    statistics, or a parameter. *)
Lemma mem_result_row (k : string) (params : dict) (l : list Q) :
  Dict.mem k (result_row params l)
  = Dict.mem k (score_fields l)
    || str_in k ["fmacro_avg"; "fmacro_std"]
    || Dict.mem k params.
Proof.
  unfold result_row. rewrite !mem_update. do 2 f_equal.
  apply mem_keys.
Qed.

Lemma csv_line_nth names row i k :
  nth_error names i = Some k ->
  nth_error (csv_line names row) i
  = Some (match Dict.get k row with Some v => v | None => restval end).
Proof.
  intros H. unfold csv_line. now rewrite nth_error_map, H.
Qed.

(** The cell of a data row under the name [profile] is empty. *)
Lemma data_line_profile gs line i :
  data_line gs line ->
  nth_error (fieldnames gs) i = Some "profile" ->
  nth_error line i = Some (VStr "").
Proof.
  intros (params & l & ->) Hi.
  rewrite csv_line_nth with (k := "profile") by assumption.
  rewrite mem_false_get; [reflexivity|].
  rewrite mem_result_row, mem_plain_score_fields by reflexivity.
  unfold Dict.mem. now rewrite get_remove.
Qed.

Lemma retained_all (ps : list dict) : retained ps = ps.
Proof.
  unfold retained, filter_useless_combs.
  induction ps as [|p ps IH]; [reflexivity|].
  cbn [filter negb]. now f_equal.
Qed.

(** Shape of a run of either command. *)
Lemma run_command_shape gs c s r gs' s' :
  run_command gs c s = (r, gs', s') ->
  (exists e evs, r = Raise e /\ gs' = gs
                 /\ trace s' = trace s ++ evs /\ Forall is_load evs)
  \/ (exists acq loads bs,
        call_like acq /\ Forall is_load loads
        /\ blocks gs acq (param_grid gs) bs r (param_grid gs')
        /\ trace s' = trace s ++ loads ++ List.concat bs ++ closing r).
Proof.
  destruct c as [trainfp testfp|datafp]; cbn [run_command]; intros H.
  - apply fixed_shape in H as [H|(d & s1 & bs & _ & Hb & Ht)];
      [now left|right].
    eexists (acq_fixed gs d), _, bs.
    split; [apply acq_fixed_calls|].
    split; [|split; [exact Hb|exact Ht]]. repeat constructor.
  - apply xval_shape in H as [H|(d & s1 & bs & _ & Hb & Ht)];
      [now left|right].
    eexists (acq_xval gs d), _, bs.
    split; [apply acq_xval_calls|].
    split; [|split; [exact Hb|exact Ht]]. repeat constructor.
Qed.

Lemma written_closing r : written (closing r) = [].
Proof. now destruct r. Qed.


(** *** The CSV file of a sweep *)

(** What a run of a command adds to the CSV file: data rows only, one for
    each parameter set when the command returns. *)
Lemma run_command_rows gs c s r gs' s' :
  run_command gs c s = (r, gs', s') ->
  exists rows,
    written (trace s') = written (trace s) ++ rows
    /\ Forall (data_line gs) rows
    /\ (r = Ok tt -> List.length rows = List.length (param_grid gs)).
Proof.
  intros H.
  apply run_command_shape in H
      as [(e & evs & -> & _ & Ht & Hl)
         |(acq & loads & bs & Hacq & Hl & Hb & Ht)].
  - exists []. rewrite Ht, written_app, (written_loads Hl).
    split; [reflexivity|]. split; [constructor|discriminate].
  - exists (written (List.concat bs)).
    rewrite Ht, !written_app, (written_loads Hl), written_closing,
      app_nil_r.
    split; [reflexivity|].
    apply blocks_facts in Hb as [Hrows Hr]; [|assumption].
    split; [assumption|]. intros ->. apply Hr.
Qed.

(** C1: after a successful construction and a sweep that returns, in the
    fixed and in the cross-validation operation alike, the CSV file
    consists of the header (the parameter names of the first parameter
    set, then [fmacro_1] to [fmacro_repeat], then [fmacro_avg] and
    [fmacro_std]) followed by exactly one data row for each parameter set
    that the filter keeps. *)
Theorem csv_header_and_rows
    model_ wvfp_ rand_ repeat_ cv_ path_ s0 gs s1 c gs' s2 :
  __init__ model_ wvfp_ rand_ repeat_ cv_ path_ s0 = (Ok gs, s1) ->
  run_command gs c s1 = (Ok tt, gs', s2) ->
  exists first rows,
    hd_error (param_grid gs) = Some first
    /\ written (trace s2)
       = written (trace s0)
         ++ map VStr (Dict.keys first
                      ++ map fmacro_key (seq 0 repeat_)
                      ++ ["fmacro_avg"; "fmacro_std"])
            :: rows
    /\ List.length rows = List.length (retained (param_grid gs)).
Proof.
  intros Hinit Hrun.
  apply init_inv in Hinit
      as (_ & _ & _ & _ & _ & _ & _ & first & rest & Hgrid & Hnames & Ht).
  apply run_command_rows in Hrun as (rows & Hw & _ & Hlen).
  exists first, rows. rewrite retained_all, Hgrid. split; [reflexivity|].
  split.
  - rewrite Hw, Ht, written_app, Hnames, <- app_assoc. reflexivity.
  - rewrite <- Hgrid. now apply Hlen.
Qed.

(** C2: the header written at construction has a [profile] column, and
    every data row that the fixed or the cross-validation operation
    writes has the empty string in it: the row is built from the
    parameter set after its [profile] key was popped. *)
Theorem profile_column_empty
    model_ wvfp_ rand_ repeat_ cv_ path_ s0 gs s1 c r gs' s2 :
  __init__ model_ wvfp_ rand_ repeat_ cv_ path_ s0 = (Ok gs, s1) ->
  run_command gs c s1 = (r, gs', s2) ->
  In "profile" (fieldnames gs)
  /\ exists rows,
       written (trace s2)
       = written (trace s0) ++ map VStr (fieldnames gs) :: rows
       /\ forall row i,
            In row rows ->
            nth_error (fieldnames gs) i = Some "profile" ->
            nth_error row i = Some (VStr "").
Proof.
  intros Hinit Hrun.
  apply init_inv in Hinit
      as (_ & _ & _ & _ & _ & _ & Hgen & first & rest & Hgrid & Hnames & Ht).
  apply generated_keys in Hgen. rewrite Hgrid in Hgen.
  apply Forall_inv in Hgen as [Hprofile _].
  apply run_command_rows in Hrun as (rows & Hw & Hrows & _).
  split.
  - rewrite Hnames. unfold header_of. apply in_or_app. left.
    apply str_in_In. now rewrite <- mem_keys.
  - exists rows. split.
    + rewrite Hw, Ht, written_app, <- app_assoc. reflexivity.
    + intros row i Hin Hi. rewrite Forall_forall in Hrows.
      eapply data_line_profile; eauto.
Qed.


(** *** Exceptions *)

Lemma quiet_not_raised evs ev e :
  Forall (fun x => raised x = None) evs -> In ev evs ->
  raised ev = Some e -> False.
Proof.
  intros Hq Hin Hr. rewrite Forall_forall in Hq. apply Hq in Hin. congruence.
Qed.

(** C4: when a training or cross-validation call raises during a sweep,
    the operation ends with that very exception.  The raising call is the
    last thing that happened: every call before it returned, no call was
    made again and no row, call or close follows it.  The parameter sets
    after the current one are untouched, and the rows written are those
    of the parameter sets before it. *)
Theorem exception_aborts_sweep gs c s r gs' s' :
  run_command gs c s = (r, gs', s') ->
  exists evs,
    trace s' = trace s ++ evs
    /\ forall ev e,
         In ev evs -> raised ev = Some e ->
         r = Raise e
         /\ (exists evs0,
               evs = evs0 ++ [ev]
               /\ Forall (fun x => raised x = None) evs0)
         /\ (exists pre p post,
               param_grid gs = pre ++ p :: post
               /\ param_grid gs'
                  = map (Dict.remove "profile") pre
                    ++ Dict.remove "profile" p :: post
               /\ List.length (written evs) = List.length (retained pre)).
Proof.
  intros H.
  apply run_command_shape in H
      as [(e0 & evs & -> & _ & Ht & Hl)
         |(acq & loads & bs & Hacq & Hl & Hb & Ht)].
  - exists evs. split; [assumption|]. intros ev e Hin Hr.
    exact (False_ind _ (@quiet_not_raised _ _ _ (loads_quiet Hl) Hin Hr)).
  - eexists. split; [exact Ht|]. intros ev e Hin Hr.
    apply blocks_facts in Hb as [_ Hfacts]; [|assumption].
    apply loads_quiet in Hl as Hlq.
    destruct r as [[]|e'].
    + destruct Hfacts as (_ & _ & Hq). exfalso.
      apply in_app_or in Hin as [Hin|Hin];
        [exact (@quiet_not_raised _ _ _ Hlq Hin Hr)|].
      apply in_app_or in Hin as [Hin|Hin];
        [exact (@quiet_not_raised _ _ _ Hq Hin Hr)|].
      cbn [closing In] in Hin. destruct Hin as [<-|[]]. discriminate Hr.
    + destruct Hfacts as (pre & p & post & Hps & Hgrid & Hlen & Hlast).
      cbn [closing] in *. rewrite app_nil_r in *.
      destruct Hlast as [Hq|(evs0 & ev' & Hcat & Hq & Hr')].
      * exfalso. apply in_app_or in Hin as [Hin|Hin].
        -- exact (@quiet_not_raised _ _ _ Hlq Hin Hr).
        -- exact (@quiet_not_raised _ _ _ Hq Hin Hr).
      * rewrite Hcat in Hin |- *.
        assert (ev = ev') as <-.
        { apply in_app_or in Hin as [Hin|Hin];
            [exact (False_ind _ (@quiet_not_raised _ _ _ Hlq Hin Hr))|].
          apply in_app_or in Hin as [Hin|[<-|[]]];
            [exact (False_ind _ (@quiet_not_raised _ _ _ Hq Hin Hr))
            |reflexivity]. }
        split; [congruence|]. split.
        -- exists (loads ++ evs0). rewrite <- app_assoc.
           split; [reflexivity|]. apply Forall_app. auto.
        -- exists pre, p, post. rewrite retained_all.
           repeat split; try assumption.
           rewrite written_app, (written_loads Hl), <- Hcat. exact Hlen.
Qed.


(** *** The fixed operation *)

Lemma blocks_ok_Forall2 gs acq ps bs grid :
  blocks gs acq ps bs (Ok tt) grid ->
  grid = map (Dict.remove "profile") ps
  /\ Forall2 (fun p evs => block gs acq p evs (Ok tt)) ps bs.
Proof.
  remember (Ok tt) as r eqn:Hr.
  induction 1 as [|p ps evs bs r grid Hb Hbs IH|]; subst.
  - split; constructor.
  - destruct (IH eq_refl) as [-> Hall]. split; [reflexivity|].
    now constructor.
  - discriminate.
Qed.

Lemma call_load_data_inv fp profile s d s1 :
  call_load_data fp profile s = (Ok d, s1) ->
  load_data fp profile (world s) = (Ok d, world s1).
Proof.
  unfold call_load_data. destruct (load_data fp profile (world s)).
  intros H. now inversion H.
Qed.

Lemma load_fixed_data trainfp testfp s d s1 :
  load_fixed trainfp testfp s = (Ok d, s1) ->
  exists w1 w2 w3,
    load_data trainfp false (world s) = (Ok (train d), w1)
    /\ load_data trainfp true w1 = (Ok (train_p d), w2)
    /\ load_data testfp false w2 = (Ok (test d), w3)
    /\ load_data testfp true w3 = (Ok (test_p d), world s1).
Proof.
  unfold load_fixed. intros H.
  repeat match type of H with
         | bind _ _ _ = _ =>
             let H1 := fresh "Hl" in
             apply bind_inv in H as [(? & ? & H1 & H)|(? & _ & H)];
             [apply call_load_data_inv in H1|discriminate H]
         end.
  inversion H. subst. cbn [train train_p test test_p]. eauto 7.
Qed.

(** C5: a run of [fixed] that returns has loaded the training and the
    test file once each in the no-profile and in the profile variant,
    before the loop.  Then, for every parameter set that the filter
    keeps, it has popped the profile flag, called the training routine
    exactly [repeat] times on the set without the flag, with the profile
    data when the flag is true and the no-profile data otherwise, and
    written one row from the [repeat] scores.  The file is closed last. *)
Theorem fixed_loads_once_and_repeats gs trainfp testfp s gs' s' :
  fixed gs trainfp testfp s = (Ok tt, gs', s') ->
  let tr := path_join (path gs) trainfp in
  let te := path_join (path gs) testfp in
  exists d w1 w2 w3 w4 bs,
    load_data tr false (world s) = (Ok (train d), w1)
    /\ load_data tr true w1 = (Ok (train_p d), w2)
    /\ load_data te false w2 = (Ok (test d), w3)
    /\ load_data te true w3 = (Ok (test_p d), w4)
    /\ trace s' = trace s
                  ++ [ELoad tr false; ELoad tr true;
                      ELoad te false; ELoad te true]
                  ++ List.concat bs ++ [EClose]
    /\ param_grid gs' = map (Dict.remove "profile") (param_grid gs)
    /\ Forall2
         (fun params evs =>
            exists fmacro_list,
              List.length fmacro_list = repeat gs
              /\ evs = map (fun q =>
                              train_event d (Dict.get "profile" params)
                                (Dict.remove "profile" params) (Ok q))
                           fmacro_list
                       ++ [EWrite (csv_line (fieldnames gs)
                                     (result_row
                                        (Dict.remove "profile" params)
                                        fmacro_list))])
         (retained (param_grid gs)) bs.
Proof.
  intros H. cbv zeta.
  apply fixed_shape in H as [(e & _ & He & _)|(d & s1 & bs & Hl & Hb & Ht)];
    [discriminate He|].
  apply load_fixed_data in Hl as (w1 & w2 & w3 & H1 & H2 & H3 & H4).
  apply blocks_ok_Forall2 in Hb as [Hgrid Hall].
  exists d, w1, w2, w3, (world s1), bs. rewrite retained_all.
  repeat (split; [assumption|]).
  eapply Forall2_impl; [|exact Hall]. cbv beta.
  intros p evs Hblock.
  inversion Hblock as [evs0 l Hacq Hw Hc| |]; subst.
  destruct Hacq as (l' & [(Hl & Hlen & ->)|(e & He & _)]);
    [|discriminate He].
  injection Hl as ->. exists l'. split; [assumption|reflexivity].
Qed.


(** *** The score columns *)

Lemma get_add_scores (j : nat) (l : list Q) :
  forall a acc,
    Dict.get (fmacro_key j)
      (fold_left add_score (combine (seq a (List.length l)) l) acc)
    = if Nat.leb a j && Nat.ltb j (a + List.length l)
      then Some (VFloat (nth (j - a) l 0%Q))
      else Dict.get (fmacro_key j) acc.
Proof.
  induction l as [|v l IH]; intros a acc;
    cbn [List.length seq combine fold_left].
  - replace (Nat.ltb j (a + 0)) with (Nat.ltb j a) by (f_equal; lia).
    destruct (Nat.leb a j) eqn:E1, (Nat.ltb j a) eqn:E2; try reflexivity.
    apply Nat.leb_le in E1. apply Nat.ltb_lt in E2. lia.
  - rewrite IH. unfold add_score at 1. cbn [fst snd].
    rewrite get_set, fmacro_key_eqb.
    destruct (Nat.leb (S a) j) eqn:E1, (Nat.ltb j (S a + List.length l)) eqn:E2,
             (Nat.leb a j) eqn:E3, (Nat.ltb j (a + S (List.length l))) eqn:E4,
             (Nat.eqb j a) eqn:E5; cbn [andb];
      repeat match goal with
             | H : Nat.leb _ _ = true |- _ => apply Nat.leb_le in H
             | H : Nat.leb _ _ = false |- _ => apply Nat.leb_gt in H
             | H : Nat.ltb _ _ = true |- _ => apply Nat.ltb_lt in H
             | H : Nat.ltb _ _ = false |- _ => apply Nat.ltb_ge in H
             | H : Nat.eqb _ _ = true |- _ => apply Nat.eqb_eq in H
             | H : Nat.eqb _ _ = false |- _ => apply Nat.eqb_neq in H
             end; try lia; try reflexivity.
    + replace (j - a) with (S (j - S a)) by lia. reflexivity.
    + subst j. now rewrite Nat.sub_diag.
Qed.

Lemma get_score_fields (j : nat) (l : list Q) :
  j < List.length l ->
  Dict.get (fmacro_key j) (score_fields l) = Some (VFloat (nth j l 0%Q)).
Proof.
  intros H. rewrite score_fields_fold, get_add_scores.
  cbn [Nat.leb andb Nat.add]. apply Nat.ltb_lt in H. rewrite H.
  now rewrite Nat.sub_0_r.
Qed.

Lemma str_in_fmacro_keys (j n : nat) :
  str_in (fmacro_key j) (map fmacro_key (seq 0 n)) = Nat.ltb j n.
Proof.
  destruct (Nat.ltb j n) eqn:E.
  - apply Nat.ltb_lt in E. apply str_in_In, in_map, in_seq. lia.
  - apply Nat.ltb_ge in E.
    destruct (str_in _ _) eqn:Ex; [|reflexivity].
    apply str_in_In, in_map_iff in Ex as (i & Hi & Hin).
    apply fmacro_key_inj in Hi. apply in_seq in Hin. lia.
Qed.

(** The header has the score columns [fmacro_1] to [fmacro_n] and no
    other. *)
Lemma header_fmacro (first : dict) (j n : nat) :
  plain_keys first = true ->
  str_in (fmacro_key j) (header_of first n) = Nat.ltb j n.
Proof.
  intros Hp. unfold header_of.
  rewrite !str_in_app, <- mem_keys, plain_not_fmacro by assumption.
  rewrite str_in_fmacro_keys, fmacro_key_not_stat.
  now rewrite orb_false_r.
Qed.

(** A row that the writer accepts has at most as many scores as the
    header has score columns. *)
Lemma accepted_row_fits (first params : dict) (n : nat) (l : list Q) :
  plain_keys first = true ->
  wrong_fields (header_of first n) (result_row params l) = [] ->
  List.length l <= n.
Proof.
  intros Hp Hw. rewrite wrong_fields_nil in Hw.
  destruct (Nat.ltb n (List.length l)) eqn:E;
    [|now apply Nat.ltb_ge in E].
  specialize (Hw (fmacro_key n)).
  rewrite mem_result_row, mem_fmacro_score_fields, E, header_fmacro in Hw
    by assumption.
  specialize (Hw eq_refl). apply Nat.ltb_lt in Hw. lia.
Qed.

(** The score cells of a row of [l] scores for the parameters [params]. *)
Lemma score_cells (names : list string) (params : dict) (l : list Q) j i :
  plain_keys params = true ->
  nth_error names i = Some (fmacro_key j) ->
  nth_error (csv_line names (result_row params l)) i
  = Some (if Nat.ltb j (List.length l)
          then VFloat (nth j l 0%Q) else VStr "").
Proof.
  intros Hp Hi. rewrite csv_line_nth with (k := fmacro_key j) by assumption.
  f_equal. unfold result_row.
  rewrite get_update_none
    by (apply mem_false_get; now apply plain_not_fmacro).
  rewrite get_update_none.
  - destruct (Nat.ltb j (List.length l)) eqn:E.
    + apply Nat.ltb_lt in E. now rewrite get_score_fields.
    + rewrite mem_false_get; [reflexivity|].
      now rewrite mem_fmacro_score_fields.
  - apply mem_false_get. rewrite mem_keys. apply fmacro_key_not_stat.
Qed.

(** The two statistics of a row are numpy's mean and deviation of its
    scores. *)
Lemma stat_cells (names : list string) (params : dict) (l : list Q) i :
  plain_keys params = true ->
  (nth_error names i = Some "fmacro_avg" ->
   nth_error (csv_line names (result_row params l)) i
   = Some (VFloat (np_average l)))
  /\ (nth_error names i = Some "fmacro_std" ->
      nth_error (csv_line names (result_row params l)) i
      = Some (VFloat (np_std l))).
Proof.
  intros Hp.
  assert (Hmem : forall k, String.prefix "fmacro_" k = true ->
                           Dict.get k params = None).
  { intros k Hk. apply mem_false_get. rewrite mem_keys.
    destruct (str_in k (Dict.keys params)) eqn:E; [|reflexivity].
    apply str_in_In in E. unfold plain_keys in Hp.
    rewrite forallb_forall in Hp. apply Hp in E. now rewrite Hk in E. }
  split; intros Hi.
  - rewrite csv_line_nth with (k := "fmacro_avg") by assumption.
    unfold result_row. rewrite get_update_none by now apply Hmem.
    unfold Dict.update. cbn [fold_left fst snd]. now rewrite !get_set.
  - rewrite csv_line_nth with (k := "fmacro_std") by assumption.
    unfold result_row. rewrite get_update_none by now apply Hmem.
    unfold Dict.update. cbn [fold_left fst snd]. now rewrite !get_set.
Qed.

Lemma plain_keys_remove (k : string) (p : dict) :
  plain_keys p = true -> plain_keys (Dict.remove k p) = true.
Proof.
  unfold plain_keys. rewrite !forallb_forall. intros H x Hx. apply H.
  unfold Dict.keys, Dict.remove in *.
  apply in_map_iff in Hx as (kv & <- & Hkv).
  apply filter_In in Hkv as [Hkv _]. now apply in_map.
Qed.


(** *** The cross-validation operation *)

Lemma xval_scores_event gs d profile params r :
  xval_scores (xval_event gs d profile params r)
  = match r with Ok l => Some (params, l) | Raise _ => None end.
Proof. unfold xval_event. now destruct (truthy_opt profile), r. Qed.

Lemma xval_block_inv gs d p evs r :
  block gs (acq_xval gs d) p evs r ->
  exists out,
    let ev := xval_event gs d (Dict.get "profile" p)
                         (Dict.remove "profile" p) out in
    match out with
    | Raise e => r = Raise e /\ evs = [ev]
    | Ok l =>
        let row := result_row (Dict.remove "profile" p) l in
        (r = Ok tt /\ wrong_fields (fieldnames gs) row = []
         /\ evs = [ev; EWrite (csv_line (fieldnames gs) row)])
        \/ (r = Raise ValueError /\ evs = [ev])
    end.
Proof.
  inversion 1 as [evs0 l Hacq Hw Hc|evs0 e Hacq|evs0 l Hacq Hbad]; subst;
    unfold acq_xval in Hacq; subst.
  - exists (Ok l). cbv zeta. left. auto.
  - exists (Raise e). cbv zeta. auto.
  - exists (Ok l). cbv zeta. right. auto.
Qed.

Lemma xval_blocks_calls gs d ps bs r grid :
  blocks gs (acq_xval gs d) ps bs r grid ->
  forall ev params l,
    In ev (List.concat bs) -> xval_scores ev = Some (params, l) ->
    wrong_fields (fieldnames gs) (result_row params l) = []
    \/ (r = Raise ValueError /\ exists evs0, List.concat bs = evs0 ++ [ev]).
Proof.
  induction 1 as [|p ps evs bs r grid Hb Hbs IH|p ps evs e Hb];
    intros ev params l Hin Hs; cbn [List.concat] in *.
  - contradiction.
  - apply xval_block_inv in Hb as (out & Hout). cbv zeta in Hout.
    apply in_app_or in Hin as [Hin|Hin].
    + destruct out as [l0|e]; [|destruct Hout as [Hr _]; discriminate Hr].
      destruct Hout as [(_ & Hw & ->)|(Hr & _)]; [|discriminate Hr].
      destruct Hin as [<-|[<-|[]]]; [|discriminate Hs].
      rewrite xval_scores_event in Hs. injection Hs as <- <-. now left.
    + destruct (IH _ _ _ Hin Hs) as [Hw|(-> & evs0 & Hcat)]; [now left|].
      right. split; [reflexivity|]. exists (evs ++ evs0).
      now rewrite Hcat, app_assoc.
  - apply xval_block_inv in Hb as (out & Hout). cbv zeta in Hout.
    rewrite app_nil_r in *.
    destruct out as [l0|e0].
    + destruct Hout as [(Hr & _)|(Hr & ->)]; [discriminate Hr|].
      injection Hr as ->. destruct Hin as [<-|[]].
      right. split; [reflexivity|]. now exists [].
    + destruct Hout as [_ ->]. destruct Hin as [<-|[]].
      rewrite xval_scores_event in Hs. discriminate Hs.
Qed.

Lemma xval_blocks_rows gs d ps bs r grid :
  blocks gs (acq_xval gs d) ps bs r grid ->
  forall line,
    In line (written (List.concat bs)) ->
    exists ev p l,
      In ev (List.concat bs) /\ In p ps
      /\ xval_scores ev = Some (Dict.remove "profile" p, l)
      /\ line = csv_line (fieldnames gs)
                  (result_row (Dict.remove "profile" p) l)
      /\ wrong_fields (fieldnames gs)
           (result_row (Dict.remove "profile" p) l) = [].
Proof.
  induction 1 as [|p ps evs bs r grid Hb Hbs IH|p ps evs e Hb];
    intros line Hin; cbn [List.concat] in *.
  - contradiction.
  - apply xval_block_inv in Hb as (out & Hout). cbv zeta in Hout.
    destruct out as [l0|e]; [|destruct Hout as [Hr _]; discriminate Hr].
    destruct Hout as [(_ & Hw & ->)|(Hr & _)]; [|discriminate Hr].
    rewrite written_app in Hin. apply in_app_or in Hin as [Hin|Hin].
    + unfold xval_event in Hin.
      destruct (truthy_opt (Dict.get "profile" p)) eqn:E;
        cbn in Hin; destruct Hin as [<-|[]];
        eexists _, p, l0; (split; [left; reflexivity|]);
        (split; [left; reflexivity|]); rewrite xval_scores_event; auto.
    + destruct (IH _ Hin) as (ev & q & l & Hev & Hq & Hs & Hl & Hw').
      exists ev, q, l. split; [apply in_or_app; now right|].
      split; [now right|auto].
  - apply xval_block_inv in Hb as (out & Hout). cbv zeta in Hout.
    rewrite app_nil_r in Hin. exfalso.
    assert (Hevs : exists out', evs = [xval_event gs d (Dict.get "profile" p)
                                         (Dict.remove "profile" p) out']).
    { destruct out as [l0|e0].
      - destruct Hout as [(Hr & _)|(_ & ->)]; [discriminate Hr|eauto].
      - destruct Hout as [_ ->]. eauto. }
    destruct Hevs as (out' & ->). unfold xval_event in Hin.
    destruct (truthy_opt (Dict.get "profile" p)); cbn in Hin; contradiction.
Qed.


Lemma xval_scores_inv ev params l :
  xval_scores ev = Some (params, l) ->
  exists x y profile c, ev = EXval x y profile c params (Ok l).
Proof.
  destruct ev as [| | | | |x y profile c pa [l0|e]]; try discriminate.
  intros H. injection H as -> ->. eauto.
Qed.

(** C7: in the cross-validation operation the header has exactly the
    score columns [fmacro_1] to [fmacro_repeat], whatever the runner
    returns.  A call that returns more than [repeat] scores makes the
    operation end with [ValueError], and that call is the last thing that
    happened: its row is not written and the sweep goes no further.  Every
    row that is written belongs to a call that returned at most [repeat]
    scores; its score columns hold these scores in order, and the score
    columns after them are empty. *)
Theorem xval_score_columns
    model_ wvfp_ rand_ repeat_ cv_ path_ s0 gs s1 datafp r gs' s2 :
  __init__ model_ wvfp_ rand_ repeat_ cv_ path_ s0 = (Ok gs, s1) ->
  xval gs datafp s1 = (r, gs', s2) ->
  exists evs,
    trace s2 = trace s1 ++ evs
    /\ (forall j, In (fmacro_key j) (fieldnames gs) <-> j < repeat_)
    /\ (forall x y profile c params scores,
          In (EXval x y profile c params (Ok scores)) evs ->
          repeat_ < List.length scores ->
          r = Raise ValueError
          /\ exists evs0,
               evs = evs0 ++ [EXval x y profile c params (Ok scores)])
    /\ (forall line,
          In line (written evs) ->
          exists x y profile c params scores,
            In (EXval x y profile c params (Ok scores)) evs
            /\ List.length scores <= repeat_
            /\ forall j i,
                 nth_error (fieldnames gs) i = Some (fmacro_key j) ->
                 nth_error line i
                 = Some (if Nat.ltb j (List.length scores)
                         then VFloat (nth j scores 0%Q) else VStr "")).
Proof.
  intros Hinit Hrun.
  apply init_inv in Hinit
      as (_ & _ & _ & _ & _ & _ & Hgen & first & rest & Hgrid & Hnames & _).
  apply generated_keys in Hgen. rewrite Forall_forall in Hgen.
  assert (Hfirst : plain_keys first = true).
  { apply Hgen. rewrite Hgrid. now left. }
  assert (Hcols : forall j, In (fmacro_key j) (fieldnames gs) <-> j < repeat_).
  { intros j. rewrite <- str_in_In, Hnames, header_fmacro by assumption.
    apply Nat.ltb_lt. }
  apply xval_shape in Hrun
      as [(e & evs & -> & _ & Ht & Hl)
         |(d & s' & bs & _ & Hb & Ht)]; cbv zeta in *.
  - exists evs. split; [assumption|]. split; [assumption|]. split.
    + intros x y profile c params scores Hin _. exfalso.
      rewrite Forall_forall in Hl. apply Hl in Hin. exact Hin.
    + intros line Hin. rewrite (written_loads Hl) in Hin. contradiction.
  - eexists. split; [exact Ht|]. split; [assumption|].
    set (loads := [ELoad (path_join (path gs) datafp) false;
                   ELoad (path_join (path gs) datafp) true]) in *.
    assert (Hcalls : forall ev params l,
               In ev (loads ++ List.concat bs ++ closing r) ->
               xval_scores ev = Some (params, l) ->
               In ev (List.concat bs)).
    { intros ev params l Hin Hs.
      apply in_app_or in Hin as [[<-|[<-|[]]]|Hin]; try discriminate Hs.
      apply in_app_or in Hin as [Hin|Hin]; [assumption|].
      destruct r; cbn in Hin; [destruct Hin as [<-|[]]|contradiction].
      discriminate Hs. }
    split.
    + intros x y profile c params scores Hin Hlong.
      apply Hcalls with (params := params) (l := scores) in Hin as Hin';
        [|reflexivity].
      destruct (xval_blocks_calls Hb _ Hin' eq_refl)
        as [Hw|(-> & evs0 & Hcat)].
      * rewrite Hnames in Hw. apply accepted_row_fits in Hw; [lia|assumption].
      * split; [reflexivity|]. exists (loads ++ evs0).
        cbn [closing]. now rewrite app_nil_r, Hcat, app_assoc.
    + intros line Hin.
      rewrite !written_app, written_closing, app_nil_r in Hin.
      change (written loads) with (@nil (list value)) in Hin.
      cbn [app] in Hin.
      destruct (xval_blocks_rows Hb _ Hin)
        as (ev & p & l & Hev & Hp & Hs & -> & Hw).
      apply xval_scores_inv in Hs as Hform.
      destruct Hform as (x & y & profile & c & ->).
      exists x, y, profile, c, (Dict.remove "profile" p), l.
      split; [apply in_or_app; right; apply in_or_app; now left|].
      split.
      * rewrite Hnames in Hw. eapply accepted_row_fits; eassumption.
      * intros j i Hi. apply score_cells; [|assumption].
        apply plain_keys_remove. apply Hgen. assumption.
Qed.

(** *** A sweep returns when its collaborators do *)

Lemma sample_names (modelname : string) :
  exists names,
    forall g p, fst (randsample_params modelname g) = Ok p ->
                Dict.keys p = names.
Proof.
  unfold randsample_params, rand_bind, rand_ret.
  destruct (str_in modelname crossnet_names);
    [|destruct (str_in modelname memnet_names);
      [|destruct (str_in modelname transformer_names)]].
  all: eexists; intros g p.
  all: repeat match goal with
              | |- context [let (_, _) := ?c in _] => destruct c
              end.
  all: cbn [fst]; intros H; first [discriminate H | injection H as <-].
  all: try (vm_compute; reflexivity).
  Unshelve. exact [].
Qed.

Lemma generated_same_keys model_ rand_ grid p q :
  generated model_ rand_ grid -> In p grid -> In q grid ->
  Dict.keys p = Dict.keys q.
Proof.
  unfold generated. destruct (truthy_rand rand_); intros H Hp Hq.
  - rewrite Forall_forall in H.
    destruct (H _ Hp) as (g1 & H1). destruct (H _ Hq) as (g2 & H2).
    destruct (sample_names model_) as (names & Hn).
    now rewrite (Hn _ _ H1), (Hn _ _ H2).
  - unfold get_param_grid in H.
    destruct (grid_family model_); [|discriminate H].
    injection H as <-. unfold ParameterGrid in *.
    apply product_dicts_keys in Hp, Hq. congruence.
Qed.

(** A row of at most [n] scores for a parameter set with the names of the
    first one is accepted by the writer. *)
Lemma row_accepted (first p : dict) (n : nat) (l : list Q) :
  Dict.keys p = Dict.keys first ->
  List.length l <= n ->
  wrong_fields (header_of first n)
    (result_row (Dict.remove "profile" p) l) = [].
Proof.
  intros Hkeys Hlen. apply wrong_fields_nil. intros k Hk.
  unfold header_of. rewrite !str_in_app.
  rewrite mem_result_row in Hk.
  apply orb_true_iff in Hk as [Hk|Hk];
    [apply orb_true_iff in Hk as [Hk|Hk]|].
  - rewrite mem_score_fields in Hk.
    apply existsb_exists in Hk as (i & Hi & Hk).
    apply String.eqb_eq in Hk as ->. apply in_seq in Hi.
    rewrite str_in_fmacro_keys.
    replace (Nat.ltb i n) with true by (symmetry; apply Nat.ltb_lt; lia).
    now rewrite orb_true_r.
  - rewrite Hk. now rewrite !orb_true_r.
  - unfold Dict.mem in Hk. rewrite get_remove in Hk.
    destruct (String.eqb k "profile"); [discriminate Hk|].
    fold (Dict.mem k p) in Hk. rewrite mem_keys, Hkeys in Hk.
    now rewrite Hk.
Qed.

Section Progress.

Variable gs : GridSearch.
Variable first : dict.
Hypothesis open_file : csv_closed gs = false.
Hypothesis header : fieldnames gs = header_of first (repeat gs).

Lemma result2csvrow_returns p l s :
  Dict.keys p = Dict.keys first ->
  List.length l <= repeat gs ->
  exists s', _result2csvrow gs (Dict.remove "profile" p) l s = (Ok tt, s').
Proof.
  intros Hkeys Hlen. unfold _result2csvrow, writerow.
  rewrite header, row_accepted, open_file by assumption.
  unfold emit. eauto.
Qed.

Lemma for_each_returns (body : dict -> dict * M unit) (ps : list dict) :
  (forall p s, In p ps -> exists s', snd (body p) s = (Ok tt, s')) ->
  forall s, exists grid s', for_each body ps s = (Ok tt, grid, s').
Proof.
  induction ps as [|p ps IH]; intros Hbody s; cbn [for_each].
  - eauto.
  - destruct (Hbody p s (or_introl eq_refl)) as (s1 & Hp).
    destruct (body p) as [p' run]. cbn [snd] in Hp. rewrite Hp.
    destruct (IH (fun q t Hq => Hbody q t (or_intror Hq)) s1)
      as (grid & s2 & Hrest).
    rewrite Hrest. eauto.
Qed.

Hypothesis loads :
  forall fp profile w, exists d w', load_data fp profile w = (Ok d, w').

Lemma call_load_data_returns fp profile s :
  exists d s', call_load_data fp profile s = (Ok d, s').
Proof.
  unfold call_load_data.
  destruct (loads fp profile (world s)) as (d & w' & ->). eauto.
Qed.

Lemma repeat_append_returns (call : M Q) (n : nat) :
  (forall s, exists q s', call s = (Ok q, s')) ->
  forall acc s,
    exists l s', repeat_append n call acc s = (Ok l, s')
                 /\ List.length l = List.length acc + n.
Proof.
  intros Hcall. induction n as [|n IH]; intros acc s; cbn [repeat_append].
  - exists acc, s. split; [reflexivity|lia].
  - unfold bind. destruct (Hcall s) as (q & s1 & ->).
    destruct (IH (acc ++ [q]) s1) as (l & s2 & Hl & Hlen).
    exists l, s2. split; [assumption|].
    rewrite Hlen, length_app. cbn [List.length]. lia.
Qed.

Lemma fixed_returns trainfp testfp s :
  (forall m a b c d w pr pa w0,
      exists q w', run_fixed_fast m a b c d w pr pa w0 = (Ok q, w')) ->
  (forall p, In p (param_grid gs) -> Dict.keys p = Dict.keys first) ->
  exists gs' s', fixed gs trainfp testfp s = (Ok tt, gs', s').
Proof.
  intros Hrun Hkeys. unfold fixed, load_fixed, bind.
  repeat match goal with
         | |- context [call_load_data ?fp ?b ?t] =>
             let H := fresh in
             destruct (call_load_data_returns fp b t) as (? & ? & H);
             rewrite H; clear H
         end.
  unfold ret.
  match goal with
  | |- context [for_each ?body ?ps ?t] =>
      assert (Hbody : forall p u, In p ps ->
                                  exists u', snd (body p) u = (Ok tt, u'));
      [|destruct (@for_each_returns body ps Hbody t) as (grid & s2 & Hloop)]
  end.
  - intros p t Hp. unfold fixed_body, filter_useless_combs, Dict.pop.
    cbn [snd]. unfold bind.
    match goal with
    | |- context [repeat_append ?n ?call ?l0 ?t0] =>
        assert (Hcall : forall u, exists q u', call u = (Ok q, u'));
        [|destruct (@repeat_append_returns call n Hcall l0 t0)
            as (l & s1 & Hl & Hlen)]
    end.
    + intros u. unfold fixed_call, call_run_fixed_fast.
      destruct (truthy_opt _);
        match goal with
        | |- context [run_fixed_fast ?m ?a ?b ?c ?d ?w ?pr ?pa ?w0] =>
            destruct (Hrun m a b c d w pr pa w0) as (q & w' & ->)
        end; eauto.
    + rewrite Hl. apply result2csvrow_returns; [now apply Hkeys|].
      rewrite Hlen. cbn [List.length]. lia.
  - rewrite Hloop. eauto.
Qed.

Lemma xval_returns datafp s :
  (forall m a b w pr c pa w0,
      exists l w', run_xval m a b w pr c pa w0 = (Ok l, w')
                   /\ List.length l <= repeat gs) ->
  (forall p, In p (param_grid gs) -> Dict.keys p = Dict.keys first) ->
  exists gs' s', xval gs datafp s = (Ok tt, gs', s').
Proof.
  intros Hrun Hkeys. unfold xval, load_xval, bind.
  repeat match goal with
         | |- context [call_load_data ?fp ?b ?t] =>
             let H := fresh in
             destruct (call_load_data_returns fp b t) as (? & ? & H);
             rewrite H; clear H
         end.
  unfold ret.
  match goal with
  | |- context [for_each ?body ?ps ?t] =>
      assert (Hbody : forall p u, In p ps ->
                                  exists u', snd (body p) u = (Ok tt, u'));
      [|destruct (@for_each_returns body ps Hbody t) as (grid & s2 & Hloop)]
  end.
  - intros p t Hp. unfold xval_body, filter_useless_combs, Dict.pop.
    cbn [snd]. unfold bind, xval_call, call_run_xval.
    destruct (truthy_opt _);
      match goal with
      | |- context [run_xval ?m ?a ?b ?w ?pr ?c ?pa ?w0] =>
          destruct (Hrun m a b w pr c pa w0) as (l & w' & -> & Hlen)
      end; apply result2csvrow_returns; auto.
  - rewrite Hloop. eauto.
Qed.

End Progress.

(** X1: after a successful construction, a sweep returns whenever the loader
    and the training routine return; for the cross-validation operation the
    runner must also return no more scores than there are score columns. *)
Theorem sweep_returns model_ wvfp_ rand_ repeat_ cv_ path_ s0 gs s1 c :
  __init__ model_ wvfp_ rand_ repeat_ cv_ path_ s0 = (Ok gs, s1) ->
  (forall fp profile w, exists d w', load_data fp profile w = (Ok d, w')) ->
  match c with
  | CmdFixed _ _ =>
      forall m a b c d w pr pa w0,
      exists q w', run_fixed_fast m a b c d w pr pa w0 = (Ok q, w')
  | CmdXval _ =>
      forall m a b w pr c pa w0,
      exists l w', run_xval m a b w pr c pa w0 = (Ok l, w')
                   /\ List.length l <= repeat_
  end ->
  exists gs' s2, run_command gs c s1 = (Ok tt, gs', s2).
Proof.
  intros Hinit Hload Hrun.
  apply init_inv in Hinit
      as (_ & Hrep & _ & _ & _ & Hopen & Hgen & first & rest & Hgrid
          & Hnames & _).
  assert (Hkeys : forall p, In p (param_grid gs) ->
                            Dict.keys p = Dict.keys first).
  { intros p Hp. eapply generated_same_keys; [exact Hgen|assumption|].
    rewrite Hgrid. now left. }
  rewrite <- Hrep in *.
  destruct c as [trainfp testfp|datafp]; cbn [run_command].
  - now apply fixed_returns with (first := first).
  - now apply xval_returns with (first := first).
Qed.


(* ---------------------------------------------------------------- *)
(** ** Further properties *)

(** *** The parameter sets of the grid *)

Lemma distinct_names_NoDup (l : list string) :
  distinct_names l = true -> NoDup l.
Proof.
  induction l as [|x r IH]; cbn [distinct_names]; intros H.
  - constructor.
  - apply andb_true_iff in H as [Hx Hr]. constructor; [|now apply IH].
    intros Hin. apply str_in_In in Hin. now rewrite Hin in Hx.
Qed.

Lemma insert_sorted_perm {V} (kv : string * V) (l : list (string * V)) :
  Permutation (insert_sorted kv l) (kv :: l).
Proof.
  induction l as [|kv' l IH]; cbn [insert_sorted]; [reflexivity|].
  destruct (String.leb (fst kv) (fst kv')); [reflexivity|].
  rewrite IH. apply perm_swap.
Qed.

Lemma sorted_items_perm {V} (d : Dict.t V) : Permutation (sorted_items d) d.
Proof.
  induction d as [|kv d IH]; cbn [sorted_items fold_right]; [reflexivity|].
  rewrite insert_sorted_perm. now constructor.
Qed.

Lemma insert_sorted_sorted {V} (kv : string * V) (l : list (string * V)) :
  Sorted name_le (map fst l) ->
  Sorted name_le (map fst (insert_sorted kv l)).
Proof.
  induction l as [|kv' l IH]; cbn [insert_sorted map]; intros Hs.
  - repeat constructor.
  - destruct (String.leb (fst kv) (fst kv')) eqn:E; cbn [map].
    + constructor; [assumption|]. now constructor.
    + apply Sorted_inv in Hs as [Hs Hhd]. constructor; [now apply IH|].
      assert (Hle : name_le (fst kv') (fst kv)).
      { destruct (String.leb_total (fst kv) (fst kv')) as [H|H];
          [congruence|exact H]. }
      destruct l as [|kv'' l]; cbn [insert_sorted map].
      * now constructor.
      * destruct (String.leb (fst kv) (fst kv'')); cbn [map];
          constructor; [assumption|].
        now apply HdRel_inv in Hhd.
Qed.

Lemma sorted_items_sorted {V} (d : Dict.t V) :
  Sorted name_le (map fst (sorted_items d)).
Proof.
  induction d as [|kv d IH]; cbn [sorted_items fold_right].
  - constructor.
  - now apply insert_sorted_sorted.
Qed.

(** The candidate lists of a family have distinct names, so [update] only
    appends. *)
Lemma grid_family_fresh modelname extra :
  grid_family modelname = Some extra ->
  Dict.update grid_base extra = grid_base ++ extra
  /\ distinct_names (Dict.keys (grid_base ++ extra)) = true.
Proof.
  unfold grid_family. intros H.
  destruct (str_in modelname crossnet_names);
    [|destruct (str_in modelname memnet_names);
      [|destruct (str_in modelname transformer_names); [|discriminate H]]].
  all: injection H as <-; split; vm_compute; reflexivity.
Qed.

Lemma get_param_grid_inv modelname grid :
  get_param_grid modelname = Ok grid ->
  exists extra,
    grid_family modelname = Some extra
    /\ grid = product_dicts (sorted_items (grid_base ++ extra)).
Proof.
  unfold get_param_grid. intros H.
  destruct (grid_family modelname) as [extra|] eqn:Hf; [|discriminate H].
  exists extra. split; [reflexivity|].
  apply grid_family_fresh in Hf as [Hu _].
  set (d := Dict.update grid_base extra) in *.
  injection H as <-. unfold ParameterGrid. now rewrite Hu.
Qed.

Lemma grid_names_of modelname extra grid p :
  grid_family modelname = Some extra ->
  get_param_grid modelname = Ok grid ->
  In p grid ->
  Permutation (Dict.keys p) (Dict.keys (grid_base ++ extra))
  /\ NoDup (Dict.keys p)
  /\ Sorted name_le (Dict.keys p).
Proof.
  intros Hf Hg Hin.
  apply get_param_grid_inv in Hg as (extra' & Hf' & ->).
  assert (extra' = extra) as -> by congruence.
  apply product_dicts_keys in Hin. rewrite Hin.
  apply grid_family_fresh in Hf as [_ Hd].
  assert (Hperm : Permutation (map fst (sorted_items (grid_base ++ extra)))
                              (Dict.keys (grid_base ++ extra))).
  { apply Permutation_map, sorted_items_perm. }
  split; [exact Hperm|]. split.
  - eapply Permutation_NoDup; [symmetry; exact Hperm|].
    now apply distinct_names_NoDup.
  - apply sorted_items_sorted.
Qed.

Lemma product_dicts_In items p :
  In p (product_dicts items)
  <-> Forall2 (fun (kv : string * value) item =>
                 fst kv = fst item /\ In (snd kv) (snd item)) p items.
Proof.
  revert p. induction items as [|[k vs] rest IH]; intros p;
    cbn [product_dicts].
  - split.
    + intros [<-|[]]. constructor.
    + intros H. inversion H. now left.
  - rewrite in_flat_map. split.
    + intros (v & Hv & Hin). apply in_map_iff in Hin as (q & <- & Hq).
      constructor; [now split|]. now apply IH.
    + intros H. inversion H as [|[k' v] item p' rest' [Hk Hv] Hrest]; subst.
      cbn [fst snd] in *. subst k'. exists v. split; [assumption|].
      apply in_map. now apply IH.
Qed.

Lemma Forall2_names_values (items : Dict.t (list value)) (p : dict) :
  NoDup (map fst items) ->
  Forall2 (fun (kv : string * value) item =>
             fst kv = fst item /\ In (snd kv) (snd item)) p items
  <-> Dict.keys p = map fst items
      /\ forall k v, In (k, v) p ->
                     exists vs, In (k, vs) items /\ In v vs.
Proof.
  intros Hnd. split.
  - induction 1 as [|[k v] [k' vs] p items [Hk Hv] Hrest IH];
      cbn [fst snd] in *.
    + split; [reflexivity|]. intros k v [].
    + subst k'. change (NoDup (k :: map fst items)) in Hnd.
      apply NoDup_cons_iff in Hnd as [_ Hnd].
      destruct (IH Hnd) as [Hkeys Hvals]. split.
      * unfold Dict.keys in *. cbn [map fst]. congruence.
      * intros k0 v0 [Heq|Hin].
        -- injection Heq as <- <-. exists vs. split; [now left|assumption].
        -- destruct (Hvals _ _ Hin) as (vs0 & Hi & Hv0).
           exists vs0. split; [now right|assumption].
  - revert p. induction items as [|[k vs] items IH]; intros p [Hkeys Hvals].
    + destruct p; [constructor|discriminate Hkeys].
    + destruct p as [|[k0 v0] p]; [discriminate Hkeys|].
      change (k0 :: map fst p = k :: map fst items) in Hkeys.
      injection Hkeys as -> Hkeys.
      change (NoDup (k :: map fst items)) in Hnd.
      apply NoDup_cons_iff in Hnd as [Hfresh Hnd].
      assert (Hrest : forall k1 v1, In (k1, v1) p ->
                        exists vs1, In (k1, vs1) items /\ In v1 vs1).
      { intros k1 v1 Hin.
        destruct (Hvals k1 v1 (or_intror Hin)) as (vs1 & [Heq|Hi] & Hv1).
        - injection Heq as -> ->. exfalso. apply Hfresh.
          rewrite <- Hkeys. apply in_map_iff. now exists (k1, v1).
        - now exists vs1. }
      constructor; [|apply IH; auto].
      cbn [fst snd]. split; [reflexivity|].
      destruct (Hvals k v0 (or_introl eq_refl)) as (vs1 & [Heq|Hi] & Hv1).
      * now injection Heq as ->.
      * exfalso. apply Hfresh. apply in_map_iff. now exists (k, vs1).
Qed.

Lemma grid_membership_of modelname extra grid :
  grid_family modelname = Some extra ->
  get_param_grid modelname = Ok grid ->
  forall p,
    In p grid
    <-> Dict.keys p = map fst (sorted_items (grid_base ++ extra))
        /\ forall k v, In (k, v) p ->
                       exists vs, In (k, vs) (grid_base ++ extra) /\ In v vs.
Proof.
  intros Hf Hg p.
  apply get_param_grid_inv in Hg as (extra' & Hf' & ->).
  assert (extra' = extra) as -> by congruence.
  apply grid_family_fresh in Hf as [_ Hd].
  pose proof (sorted_items_perm (grid_base ++ extra)) as Hperm.
  rewrite product_dicts_In, Forall2_names_values.
  - split; intros [Hkeys Hvals]; (split; [assumption|]); intros k v Hin;
      destruct (Hvals k v Hin) as (vs & Hi & Hv); exists vs;
      (split; [|assumption]).
    + eapply Permutation_in; eassumption.
    + eapply Permutation_in; [symmetry|]; eassumption.
  - eapply Permutation_NoDup.
    + symmetry. apply Permutation_map. exact Hperm.
    + now apply distinct_names_NoDup.
Qed.

Lemma supported_grid modelname :
  supported modelname = true ->
  exists extra grid,
    grid_family modelname = Some extra /\ get_param_grid modelname = Ok grid.
Proof.
  unfold supported, get_param_grid, grid_family. intros Hs.
  destruct (str_in modelname crossnet_names);
    [|destruct (str_in modelname memnet_names);
      [|destruct (str_in modelname transformer_names); [|discriminate Hs]]].
  all: eauto.
Qed.

(** X2: every parameter set of the grid of a supported model has exactly
    the names of the candidate lists of its family, each once, in
    alphabetical order. *)
Theorem grid_names modelname :
  supported modelname = true ->
  exists extra grid,
    grid_family modelname = Some extra
    /\ get_param_grid modelname = Ok grid
    /\ forall p, In p grid ->
         Permutation (Dict.keys p) (Dict.keys (grid_base ++ extra))
         /\ NoDup (Dict.keys p)
         /\ Sorted name_le (Dict.keys p).
Proof.
  intros Hs. destruct (supported_grid modelname Hs) as (extra & grid & Hf & Hg).
  exists extra, grid. split; [assumption|]. split; [assumption|].
  intros p. now apply grid_names_of with (modelname := modelname).
Qed.

(** X3: the grid of a supported model is exactly the set of the
    combinations: a dictionary is one of its parameter sets if and only if
    it gives the names of the family, in alphabetical order, one candidate
    value each. *)
Theorem grid_membership modelname :
  supported modelname = true ->
  exists extra grid,
    grid_family modelname = Some extra
    /\ get_param_grid modelname = Ok grid
    /\ forall p,
         In p grid
         <-> Dict.keys p = map fst (sorted_items (grid_base ++ extra))
             /\ forall k v, In (k, v) p ->
                  exists vs, In (k, vs) (grid_base ++ extra) /\ In v vs.
Proof.
  intros Hs. destruct (supported_grid modelname Hs) as (extra & grid & Hf & Hg).
  exists extra, grid. split; [assumption|]. split; [assumption|].
  now apply grid_membership_of with (modelname := modelname).
Qed.

Lemma NoDup_map_cons {A} (x : A) (L : list (list A)) :
  NoDup L -> NoDup (map (cons x) L).
Proof.
  induction 1 as [|q L Hq _ IH]; cbn [map]; constructor; [|assumption].
  intros Hin. apply in_map_iff in Hin as (q' & Heq & Hq').
  injection Heq as ->. contradiction.
Qed.

Lemma product_dicts_NoDup items :
  Forall (fun item : string * list value => NoDup (snd item)) items ->
  NoDup (product_dicts items).
Proof.
  induction 1 as [|[k vs] rest Hvs _ IH]; cbn [product_dicts].
  - constructor; [intros []|constructor].
  - cbn [snd] in Hvs. induction Hvs as [|v vs Hv _ IHv]; cbn [flat_map].
    + constructor.
    + apply NoDup_app; [now apply NoDup_map_cons|assumption|].
      intros q Hq Hq'. apply in_map_iff in Hq as (q0 & <- & _).
      apply in_flat_map in Hq' as (v' & Hv' & Hin).
      apply in_map_iff in Hin as (q1 & Heq & _).
      injection Heq as -> _. contradiction.
Qed.

Lemma candidates_distinct modelname extra :
  grid_family modelname = Some extra ->
  Forall (fun item : string * list value => NoDup (snd item))
         (grid_base ++ extra).
Proof.
  unfold grid_family. intros H.
  destruct (str_in modelname crossnet_names);
    [|destruct (str_in modelname memnet_names);
      [|destruct (str_in modelname transformer_names); [|discriminate H]]].
  all: injection H as <-; unfold grid_base; cbn [app].
  all: repeat (constructor; cbn [snd In]).
  all: intros Hin;
    repeat (destruct Hin as [Hin|Hin]; [discriminate Hin|]); exact Hin.
Qed.

(** X4: the grid of a supported model has no parameter set twice. *)
Theorem grid_no_repetition modelname :
  supported modelname = true ->
  exists grid, get_param_grid modelname = Ok grid /\ NoDup grid.
Proof.
  intros Hs. destruct (supported_grid modelname Hs) as (extra & grid & Hf & Hg).
  exists grid. split; [assumption|].
  apply get_param_grid_inv in Hg as (extra' & Hf' & ->).
  assert (extra' = extra) as -> by congruence.
  apply product_dicts_NoDup.
  eapply Permutation_Forall.
  - symmetry. apply sorted_items_perm.
  - now apply candidates_distinct with (modelname := modelname).
Qed.

(** *** The parameter sets of the sampler *)

Lemma sample_names_of modelname g p :
  fst (randsample_params modelname g) = Ok p ->
  Dict.keys p = sample_base_names ++ sample_family_names modelname
  /\ distinct_names (Dict.keys p) = true.
Proof.
  unfold randsample_params, sample_family_names, rand_bind, rand_ret.
  repeat match goal with
         | |- context [let (_, _) := ?c in _] => destruct c
         end.
  destruct (str_in modelname crossnet_names);
    [|destruct (str_in modelname memnet_names);
      [|destruct (str_in modelname transformer_names)]].
  all: repeat match goal with
              | |- context [let (_, _) := ?c in _] => destruct c
              end.
  all: cbn [fst]; intros H; first [discriminate H | injection H as <-].
  all: split; vm_compute; reflexivity.
Qed.

Lemma randsample_supported modelname g :
  supported modelname = true ->
  exists p, fst (randsample_params modelname g) = Ok p.
Proof.
  unfold supported, randsample_params, rand_bind, rand_ret. intros Hs.
  repeat match goal with
         | |- context [let (_, _) := ?c in _] => destruct c
         end.
  destruct (str_in modelname crossnet_names);
    [|destruct (str_in modelname memnet_names);
      [|destruct (str_in modelname transformer_names); [|discriminate Hs]]].
  all: repeat match goal with
              | |- context [let (_, _) := ?c in _] => destruct c
              end.
  all: cbn [fst]; eauto.
Qed.

(** X5: for a supported model and every state of the generator, the
    sampled parameter set has exactly the generic names followed by the
    names of the family, whatever is drawn, and no name twice. *)
Theorem sampled_names modelname g :
  supported modelname = true ->
  exists p,
    fst (randsample_params modelname g) = Ok p
    /\ Dict.keys p = sample_base_names ++ sample_family_names modelname
    /\ NoDup (Dict.keys p).
Proof.
  intros Hs. destruct (@randsample_supported modelname g Hs) as (p & Hp).
  exists p. split; [assumption|].
  apply sample_names_of in Hp as [Hk Hd].
  split; [assumption|]. now apply distinct_names_NoDup.
Qed.

(** *** The constructor *)

Lemma product_dicts_nonempty items :
  Forall (fun item : string * list value => snd item <> []) items ->
  product_dicts items <> [].
Proof.
  induction 1 as [|[k vs] rest Hvs _ IH]; cbn [product_dicts].
  - discriminate.
  - cbn [snd] in Hvs. destruct vs as [|v vs]; [contradiction|].
    cbn [flat_map]. destruct (product_dicts rest); [contradiction|].
    discriminate.
Qed.

Lemma candidates_nonempty modelname extra :
  grid_family modelname = Some extra ->
  Forall (fun item : string * list value => snd item <> [])
         (grid_base ++ extra).
Proof.
  unfold grid_family. intros H.
  destruct (str_in modelname crossnet_names);
    [|destruct (str_in modelname memnet_names);
      [|destruct (str_in modelname transformer_names); [|discriminate H]]].
  all: injection H as <-; unfold grid_base; cbn [app].
  all: repeat (constructor; cbn [snd]); discriminate.
Qed.

Lemma grid_nonempty modelname :
  supported modelname = true ->
  exists p rest, get_param_grid modelname = Ok (p :: rest).
Proof.
  intros Hs. destruct (supported_grid modelname Hs) as (extra & grid & Hf & Hg).
  apply get_param_grid_inv in Hg as Hinv.
  destruct Hinv as (extra' & Hf' & Heq).
  assert (extra' = extra) as -> by congruence.
  assert (Hne : grid <> []).
  { rewrite Heq. apply product_dicts_nonempty.
    eapply Permutation_Forall; [symmetry; apply sorted_items_perm|].
    now apply candidates_nonempty with (modelname := modelname). }
  destruct grid as [|p rest]; [contradiction|]. eauto.
Qed.

Lemma sample_many_returns modelname n :
  supported modelname = true ->
  forall s, exists grid s',
    sample_many modelname n s = (Ok grid, s')
    /\ List.length grid = n.
Proof.
  intros Hs. induction n as [|n IH]; intros s; cbn [sample_many].
  - exists [], s. split; reflexivity.
  - unfold bind, call_randsample_params.
    destruct (@randsample_supported modelname (entropy s) Hs) as (p & Hp).
    destruct (randsample_params modelname (entropy s)) as [r g].
    cbn [fst] in Hp. subst r.
    match goal with
    | |- context [sample_many modelname n ?t] =>
        destruct (IH t) as (grid & s' & Hgrid & Hlen)
    end.
    rewrite Hgrid. exists (p :: grid), s'.
    split; [reflexivity|]. cbn [List.length]. now rewrite Hlen.
Qed.

Lemma supported_not_svm modelname :
  supported modelname = true -> String.eqb modelname "svm" = false.
Proof.
  intros Hs. destruct (String.eqb modelname "svm") eqn:E; [|reflexivity].
  apply String.eqb_eq in E. subst. discriminate Hs.
Qed.

(** X6: the controller can be constructed for every supported model name,
    for grid search and for random search with any number of samples (a
    natural number; opening the file is taken to succeed): the list of
    parameter sets is never empty, so taking its first element for the
    header does not fail, and the writer accepts the header. *)
Theorem constructor_succeeds
    modelname wvfp_ rand_ repeat_ cv_ path_ (s : state) :
  supported modelname = true ->
  exists gs s1,
    __init__ modelname wvfp_ rand_ repeat_ cv_ path_ s = (Ok gs, s1).
Proof.
  intros Hs. unfold __init__. rewrite supported_not_svm by assumption.
  unfold bind at 1. unfold bind at 1.
  assert (Hgrid : exists p rest s2,
             (if truthy_rand rand_
              then sample_many modelname
                     (match rand_ with Some n => n | None => 0 end)
              else lift_result (get_param_grid modelname)) s
             = (Ok (p :: rest), s2)).
  { destruct rand_ as [[|n]|]; cbn [truthy_rand].
    - destruct (grid_nonempty modelname Hs) as (p & rest & ->).
      unfold lift_result. eauto.
    - destruct (@sample_many_returns modelname (S n) Hs s)
        as ([|p rest] & s2 & Hgrid & Hlen); [discriminate Hlen|eauto].
    - destruct (grid_nonempty modelname Hs) as (p & rest & ->).
      unfold lift_result. eauto. }
  destruct Hgrid as (p & rest & s2 & ->).
  unfold bind, emit. cbv zeta. unfold ret at 1.
  rewrite writeheader_ok. unfold ret. eauto.
Qed.

(** X7: a number of samples that is not zero selects random search: the
    controller holds exactly that many sampled parameter sets and its
    output is named [random_search-MODEL-DATE].  Otherwise (no number, or
    zero) it holds the whole grid, takes no draw, and its output is named
    [grid_search-MODEL-DATE].  Either way the file opened is that name
    with [.csv]. *)
Theorem construction_mode
    modelname wvfp_ rand_ repeat_ cv_ path_ (s : state) gs s1 :
  __init__ modelname wvfp_ rand_ repeat_ cv_ path_ s = (Ok gs, s1) ->
  match rand_ with
  | Some (S n) =>
      List.length (param_grid gs) = S n
      /\ Forall (fun p => exists g,
                     fst (randsample_params modelname g) = Ok p)
                (param_grid gs)
      /\ basename gs
         = ("random_search-" ++ modelname ++ "-" ++ today (world s))%string
  | _ =>
      get_param_grid modelname = Ok (param_grid gs)
      /\ entropy s1 = entropy s
      /\ basename gs
         = ("grid_search-" ++ modelname ++ "-" ++ today (world s))%string
  end
  /\ In (EOpen (basename gs ++ ".csv")%string) (trace s1).
Proof.
  intros H.
  apply init_inv in H as Hinv.
  destruct Hinv as (_ & _ & _ & _ & _ & _ & _ & first & rest & _ & _ & Ht).
  split; [|rewrite Ht; apply in_or_app; right; now left].
  clear Ht. unfold __init__ in H.
  destruct (String.eqb modelname "svm"); [discriminate H|].
  apply bind_inv in H as [(date & s2 & Hd & H)|(e & _ & He)];
    [|discriminate He].
  inversion Hd. subst. clear Hd.
  apply bind_inv in H as [(grid & s3 & Hg & H)|(e & _ & He)];
    [|discriminate He].
  apply bind_inv in H as [([] & s4 & Ho & H)|(e & _ & He)];
    [|discriminate He].
  unfold emit in Ho. inversion Ho. subst s4. clear Ho.
  apply bind_inv in H as [(p & s5 & Hf & H)|(e & _ & He)];
    [|discriminate He].
  destruct grid as [|p0 rest0]; [discriminate Hf|].
  inversion Hf. subst. clear Hf.
  cbv zeta in H. unfold bind in H. rewrite writeheader_ok in H.
  unfold ret in H. inversion H. subst. clear H.
  cbn [param_grid basename entropy].
  destruct rand_ as [[|n]|]; cbn [truthy_rand] in *.
  - unfold lift_result in Hg. inversion Hg. subst. auto.
  - apply sample_many_inv in Hg as (_ & _ & Hgrid).
    destruct (Hgrid _ eq_refl) as [Hlen Hall]. auto.
  - unfold lift_result in Hg. inversion Hg. subst. auto.
Qed.

(** *** The header and the rows *)

Lemma generated_nodup_keys model_ rand_ grid p :
  generated model_ rand_ grid -> In p grid -> NoDup (Dict.keys p).
Proof.
  unfold generated. destruct (truthy_rand rand_); intros H Hp.
  - rewrite Forall_forall in H. destruct (H _ Hp) as (g & Hg).
    apply sample_names_of in Hg as [_ Hd]. now apply distinct_names_NoDup.
  - apply get_param_grid_inv in H as Hinv. destruct Hinv as (extra & Hf & _).
    now apply (@grid_names_of model_ extra grid p Hf H Hp).
Qed.

Lemma NoDup_fmacro_keys (n : nat) : NoDup (map fmacro_key (seq 0 n)).
Proof.
  generalize 0 as a. induction n as [|n IH]; intros a; cbn [seq map].
  - constructor.
  - constructor; [|apply IH].
    intros Hin. apply in_map_iff in Hin as (i & Hi & Hin).
    apply fmacro_key_inj in Hi. apply in_seq in Hin. lia.
Qed.

Lemma NoDup_header (first : dict) (n : nat) :
  NoDup (Dict.keys first) -> plain_keys first = true ->
  NoDup (header_of first n).
Proof.
  intros Hnd Hp. unfold header_of.
  assert (Hplain : forall k, In k (Dict.keys first) ->
                             String.prefix "fmacro_" k = false).
  { intros k Hk. unfold plain_keys in Hp. rewrite forallb_forall in Hp.
    apply Hp in Hk. now apply negb_true_iff in Hk. }
  apply NoDup_app; [assumption| |].
  - apply NoDup_app; [apply NoDup_fmacro_keys| |].
    + repeat constructor; cbn [In]; intuition discriminate.
    + intros k Hk Hs. apply in_map_iff in Hk as (i & <- & _).
      apply str_in_In in Hs. now rewrite fmacro_key_not_stat in Hs.
  - intros k Hk Hin. apply Hplain in Hk.
    apply in_app_or in Hin as [Hin|Hin].
    + apply in_map_iff in Hin as (i & <- & _).
      now rewrite fmacro_key_prefix in Hk.
    + destruct Hin as [<-|[<-|[]]]; discriminate Hk.
Qed.

(** X8: the header of a constructed controller has no column twice, and
    names every parameter of every parameter set of the controller, not
    only those of the first one. *)
Theorem header_fits
    modelname wvfp_ rand_ repeat_ cv_ path_ (s : state) gs s1 :
  __init__ modelname wvfp_ rand_ repeat_ cv_ path_ s = (Ok gs, s1) ->
  NoDup (fieldnames gs)
  /\ forall p k, In p (param_grid gs) -> In k (Dict.keys p) ->
                 In k (fieldnames gs).
Proof.
  intros H.
  apply init_inv in H
      as (_ & _ & _ & _ & _ & _ & Hgen & first & rest & Hgrid & Hnames & _).
  assert (Hfirst : In first (param_grid gs)) by (rewrite Hgrid; now left).
  rewrite Hnames. split.
  - apply NoDup_header.
    + eapply generated_nodup_keys; eassumption.
    + apply generated_keys in Hgen. rewrite Forall_forall in Hgen.
      now apply Hgen.
  - intros p k Hp Hk. unfold header_of. apply in_or_app. left.
    now rewrite <- (@generated_same_keys modelname rand_ (param_grid gs) p
                      first Hgen Hp Hfirst).
Qed.

(** X9: every line that construction and a sweep write, the header and the
    rows alike, has as many fields as the header has columns: the
    parameter names of the first parameter set, [repeat] scores and the
    two statistics. *)
Theorem csv_rectangular
    modelname wvfp_ rand_ repeat_ cv_ path_ (s : state) gs s1 c r gs' s2 :
  __init__ modelname wvfp_ rand_ repeat_ cv_ path_ s = (Ok gs, s1) ->
  run_command gs c s1 = (r, gs', s2) ->
  exists first lines,
    hd_error (param_grid gs) = Some first
    /\ written (trace s2) = written (trace s) ++ lines
    /\ lines <> []
    /\ forall line, In line lines ->
         List.length line = List.length (Dict.keys first) + repeat_ + 2.
Proof.
  intros Hinit Hrun.
  apply init_inv in Hinit
      as (_ & _ & _ & _ & _ & _ & _ & first & rest & Hgrid & Hnames & Ht).
  apply run_command_rows in Hrun as (rows & Hw & Hrows & _).
  assert (Hcols : List.length (fieldnames gs)
                  = List.length (Dict.keys first) + repeat_ + 2).
  { rewrite Hnames. unfold header_of.
    rewrite !length_app, length_map, length_seq. cbn [List.length]. lia. }
  exists first, (map VStr (fieldnames gs) :: rows).
  split; [now rewrite Hgrid|]. split.
  - rewrite Hw, Ht, written_app, <- app_assoc. reflexivity.
  - split; [discriminate|]. intros line [<-|Hin].
    + now rewrite length_map.
    + rewrite Forall_forall in Hrows.
      destruct (Hrows _ Hin) as (params & l & ->).
      unfold csv_line. now rewrite length_map.
Qed.

Lemma get_update_some {V} (k : string) (v : V) (e d : Dict.t V) :
  NoDup (Dict.keys e) -> Dict.get k e = Some v ->
  Dict.get k (Dict.update d e) = Some v.
Proof.
  unfold Dict.update. revert d.
  induction e as [|[k1 v1] e IH]; intros d Hnd H; [discriminate H|].
  change (NoDup (k1 :: Dict.keys e)) in Hnd.
  apply NoDup_cons_iff in Hnd as [Hfresh Hnd].
  cbn [fold_left fst snd]. cbn [Dict.get] in H.
  destruct (String.eqb k k1) eqn:E.
  - apply String.eqb_eq in E. subst k1. injection H as ->.
    assert (Hnone : Dict.get k e = None).
    { apply mem_false_get. rewrite mem_keys.
      destruct (str_in k (Dict.keys e)) eqn:Es; [|reflexivity].
      apply str_in_In in Es. contradiction. }
    change (fold_left _ e ?d0) with (Dict.update d0 e).
    rewrite get_update_none by assumption.
    now rewrite get_set, String.eqb_refl.
  - now apply IH.
Qed.

(** X10: when [_result2csvrow] returns, it has written one line.  Under
    the name of a parameter the line holds the value of the parameter,
    under [fmacro_1], [fmacro_2], ... the scores in order (empty beyond
    the last score), and under [fmacro_avg] and [fmacro_std] numpy's mean
    and deviation of the scores; every parameter has a column. *)
Theorem result2csvrow_cells gs (params : dict) (l : list Q) s s' :
  _result2csvrow gs params l s = (Ok tt, s') ->
  NoDup (Dict.keys params) ->
  plain_keys params = true ->
  exists line,
    trace s' = trace s ++ [EWrite line]
    /\ (forall k, In k (Dict.keys params) -> In k (fieldnames gs))
    /\ forall i k,
         nth_error (fieldnames gs) i = Some k ->
         (forall v, Dict.get k params = Some v -> nth_error line i = Some v)
         /\ (forall j, k = fmacro_key j ->
               nth_error line i
               = Some (if Nat.ltb j (List.length l)
                       then VFloat (nth j l 0%Q) else VStr ""))
         /\ (k = "fmacro_avg" ->
             nth_error line i = Some (VFloat (np_average l)))
         /\ (k = "fmacro_std" ->
             nth_error line i = Some (VFloat (np_std l))).
Proof.
  intros H Hnd Hp. unfold _result2csvrow in H.
  apply writerow_inv in H as [(Hw & _ & _ & Ht)|(_ & He & _)];
    [|discriminate He].
  eexists. split; [exact Ht|]. split.
  - intros k Hk. rewrite wrong_fields_nil in Hw. apply str_in_In.
    apply Hw. rewrite mem_result_row, (mem_keys k params).
    apply str_in_In in Hk. rewrite Hk. now rewrite orb_true_r.
  - intros i k Hi. repeat split.
    + intros v Hv. rewrite csv_line_nth with (k := k) by assumption.
      unfold result_row. now rewrite get_update_some with (v := v).
    + intros j ->. now apply score_cells.
    + intros ->. now apply (@stat_cells (fieldnames gs) params l i Hp).
    + intros ->. now apply (@stat_cells (fieldnames gs) params l i Hp).
Qed.

(** *** The cross-validation operation, step by step *)

Lemma load_xval_data datafp s d s1 :
  load_xval datafp s = (Ok d, s1) ->
  exists w1,
    load_data datafp false (world s) = (Ok (fst d), w1)
    /\ load_data datafp true w1 = (Ok (snd d), world s1).
Proof.
  unfold load_xval. intros H.
  repeat match type of H with
         | bind _ _ _ = _ =>
             let H1 := fresh "Hl" in
             apply bind_inv in H as [(? & ? & H1 & H)|(? & _ & H)];
             [apply call_load_data_inv in H1|discriminate H]
         end.
  inversion H. subst. cbn [fst snd]. eauto.
Qed.

(** X11: a run of [xval] that returns has loaded the data file once in the
    no-profile and once in the profile variant, before the loop.  Then, for
    every parameter set in order, it has popped the profile flag, called
    the cross-validation routine exactly once on the set without the flag,
    with the profile data when the flag is true and the no-profile data
    otherwise, and written one row from the scores of that call.  The file
    is closed last. *)
Theorem xval_loads_once_and_calls_once gs datafp s gs' s' :
  xval gs datafp s = (Ok tt, gs', s') ->
  let fp := path_join (path gs) datafp in
  exists d w1 w2 bs,
    load_data fp false (world s) = (Ok (fst d), w1)
    /\ load_data fp true w1 = (Ok (snd d), w2)
    /\ trace s' = trace s ++ [ELoad fp false; ELoad fp true]
                  ++ List.concat bs ++ [EClose]
    /\ param_grid gs' = map (Dict.remove "profile") (param_grid gs)
    /\ Forall2
         (fun params evs =>
            exists scores,
              evs = [xval_event gs d (Dict.get "profile" params)
                       (Dict.remove "profile" params) (Ok scores);
                     EWrite (csv_line (fieldnames gs)
                               (result_row (Dict.remove "profile" params)
                                           scores))])
         (param_grid gs) bs.
Proof.
  intros H. cbv zeta.
  apply xval_shape in H as [(e & _ & He & _)|(d & s1 & bs & Hl & Hb & Ht)];
    [discriminate He|].
  apply load_xval_data in Hl as (w1 & H1 & H2).
  apply blocks_ok_Forall2 in Hb as [Hgrid Hall].
  exists d, w1, (world s1), bs.
  repeat (split; [assumption|]).
  eapply Forall2_impl; [|exact Hall]. cbv beta.
  intros p evs Hblock.
  apply xval_block_inv in Hblock as (out & Hout). cbv zeta in Hout.
  destruct out as [l|e]; [|destruct Hout as [Hr _]; discriminate Hr].
  destruct Hout as [(_ & _ & ->)|(Hr & _)]; [|discriminate Hr].
  now exists l.
Qed.

(** *** The file handle *)

Lemma run_command_object gs c s r gs' s' :
  run_command gs c s = (r, gs', s') ->
  fieldnames gs' = fieldnames gs
  /\ csv_closed gs'
     = match r with Ok _ => true | Raise _ => csv_closed gs end.
Proof.
  destruct c as [trainfp testfp|datafp]; cbn [run_command];
    [unfold fixed|unfold xval].
  all: match goal with
       | |- context [load_fixed ?a ?b ?t] =>
           destruct (load_fixed a b t) as [[d|e] s1]
       | |- context [load_xval ?a ?t] =>
           destruct (load_xval a t) as [[d|e] s1]
       end; [|intros H; inversion H; subst; auto].
  all: match goal with
       | |- context [for_each ?b ?ps ?t] =>
           destruct (for_each b ps t) as [[[[]|e] grid] s2]
       end; intros H; inversion H; subst; auto.
Qed.

Lemma call_not_close (ev : event) : is_call ev -> ev <> EClose.
Proof. destruct ev; intros H; (contradiction || discriminate). Qed.

Lemma returned_no_close evs : Forall returned evs -> ~ In EClose evs.
Proof.
  intros H Hin. rewrite Forall_forall in H. apply H in Hin as [Hc _].
  exact Hc.
Qed.

Lemma block_no_close gs acq p evs r :
  call_like acq -> block gs acq p evs r -> ~ In EClose evs.
Proof.
  intros Hacq Hb Hin.
  inversion Hb as [evs0 l Ha Hw Hc|evs0 e Ha|evs0 l Ha Hbad]; subst;
    apply Hacq in Ha.
  - apply in_app_or in Hin as [Hin|[Hin|[]]]; [|discriminate Hin].
    exact (returned_no_close Ha Hin).
  - destruct Ha as (evs0 & ev & -> & Hret & Hcall & _).
    apply in_app_or in Hin as [Hin|[Hin|[]]];
      [exact (returned_no_close Hret Hin)|].
    subst ev. exact Hcall.
  - exact (returned_no_close Ha Hin).
Qed.

Lemma blocks_no_close gs acq ps bs r grid :
  call_like acq -> blocks gs acq ps bs r grid ->
  ~ In EClose (List.concat bs).
Proof.
  intros Hacq. induction 1 as [|p ps evs bs r grid Hb Hbs IH|p ps evs e Hb];
    cbn [List.concat]; intros Hin.
  - contradiction.
  - apply in_app_or in Hin as [Hin|Hin]; [|now apply IH].
    exact (block_no_close Hacq Hb Hin).
  - rewrite app_nil_r in Hin. exact (block_no_close Hacq Hb Hin).
Qed.

Lemma loads_no_close evs : Forall is_load evs -> ~ In EClose evs.
Proof.
  intros H Hin. rewrite Forall_forall in H. apply H in Hin. exact Hin.
Qed.

(** X12: the CSV file is closed exactly when the sweep returns.  A sweep
    that returns closes the file as its very last step and not before; a
    sweep that ends with an exception, be it from the loader, from a
    training call or from the writer, never closes the file and leaves
    the handle of the controller open. *)
Theorem file_closed_iff_returned gs c s r gs' s' :
  csv_closed gs = false ->
  run_command gs c s = (r, gs', s') ->
  exists evs,
    trace s' = trace s ++ evs
    /\ (r = Ok tt ->
        csv_closed gs' = true
        /\ exists evs0, evs = evs0 ++ [EClose] /\ ~ In EClose evs0)
    /\ (forall e, r = Raise e ->
                  csv_closed gs' = false /\ ~ In EClose evs).
Proof.
  intros Hopen H.
  apply run_command_object in H as Hobj. destruct Hobj as [_ Hclosed].
  apply run_command_shape in H
      as [(e0 & evs & -> & _ & Ht & Hl)
         |(acq & loads & bs & Hacq & Hl & Hb & Ht)].
  - exists evs. split; [assumption|]. split; [discriminate|].
    intros e _. split; [now rewrite Hclosed|now apply loads_no_close].
  - eexists. split; [exact Ht|].
    assert (Hnone : ~ In EClose (loads ++ List.concat bs)).
    { intros Hin. apply in_app_or in Hin as [Hin|Hin].
      - exact (loads_no_close Hl Hin).
      - exact (blocks_no_close Hacq Hb Hin). }
    split.
    + intros ->. split; [assumption|]. cbn [closing].
      exists (loads ++ List.concat bs).
      split; [now rewrite app_assoc|assumption].
    + intros e ->. split; [now rewrite Hclosed|]. cbn [closing].
      now rewrite app_nil_r.
Qed.

Lemma blocks_closed gs acq ps bs r grid :
  call_like acq -> csv_closed gs = true ->
  blocks gs acq ps bs r grid ->
  written (List.concat bs) = [] /\ (r = Ok tt -> ps = []).
Proof.
  intros Hacq Hclosed.
  induction 1 as [|p ps evs bs r grid Hb Hbs IH|p ps evs e Hb].
  - split; reflexivity.
  - exfalso. inversion Hb as [evs0 l Ha Hw Hc| |]; subst. congruence.
  - apply (block_raise Hacq) in Hb as [Hw _]. cbn [List.concat].
    rewrite app_nil_r. split; [assumption|discriminate].
Qed.

(** X13: a controller serves one sweep.  After a sweep that returned, a
    second sweep on the same controller, fixed or cross-validation, writes
    nothing to the CSV file, and unless the controller has no parameter
    sets at all it ends with an exception. *)
Theorem finished_controller_writes_nothing gs c1 s gs1 s1 c2 r gs2 s2 :
  run_command gs c1 s = (Ok tt, gs1, s1) ->
  run_command gs1 c2 s1 = (r, gs2, s2) ->
  written (trace s2) = written (trace s1)
  /\ (param_grid gs <> [] -> exists e, r = Raise e).
Proof.
  intros H1 H2.
  apply run_command_object in H1 as Hobj. destruct Hobj as [_ Hclosed].
  apply run_command_shape in H1
      as [(e0 & _ & He & _)|(acq1 & _ & bs1 & _ & _ & Hb1 & _)];
    [discriminate He|].
  apply blocks_ok_Forall2 in Hb1 as [Hgrid _].
  apply run_command_shape in H2
      as [(e & evs & -> & _ & Ht & Hl)
         |(acq & loads & bs & Hacq & Hl & Hb & Ht)].
  - rewrite Ht, written_app, (written_loads Hl), app_nil_r.
    split; [reflexivity|]. intros _. now exists e.
  - apply (blocks_closed Hacq Hclosed) in Hb as [Hw Hr].
    rewrite Ht, !written_app, (written_loads Hl), Hw, written_closing,
      app_nil_r.
    split; [reflexivity|]. intros Hne.
    destruct r as [[]|e]; [|now exists e].
    exfalso. apply Hne. specialize (Hr eq_refl). rewrite Hgrid in Hr.
    now apply map_eq_nil in Hr.
Qed.

(** *** A loader that raises *)

Lemma call_load_data_ok fp profile s d w :
  load_data fp profile (world s) = (Ok d, w) ->
  call_load_data fp profile s
  = (Ok d, mkState w (entropy s) (trace s ++ [ELoad fp profile])).
Proof. unfold call_load_data. now intros ->. Qed.

Lemma call_load_data_raise fp profile s e w :
  load_data fp profile (world s) = (Raise e, w) ->
  call_load_data fp profile s
  = (Raise e, mkState w (entropy s) (trace s ++ [ELoad fp profile])).
Proof. unfold call_load_data. now intros ->. Qed.

(** X14: the data is loaded before the loop, and a failure there ends the
    sweep.  When the calls of [load_data] before some call return and that
    call raises, the sweep ends with the exception of the loader right
    after that call: no training or cross-validation call is made, no row
    is written, the file is not closed, and the controller is as it
    was. *)
Theorem load_failure_ends_sweep gs c s pre fp profile post w e w' :
  load_plan gs c = pre ++ (fp, profile) :: post ->
  loads_ok pre (world s) w ->
  load_data fp profile w = (Raise e, w') ->
  run_command gs c s
  = (Raise e, gs,
     mkState w' (entropy s)
             (trace s ++ load_events pre ++ [ELoad fp profile])).
Proof.
  intros Hplan Hok Hfail.
  destruct c as [trainfp testfp|datafp];
    cbn [load_plan run_command] in *; cbv zeta in Hplan;
    [unfold fixed, load_fixed|unfold xval, load_xval].
  all: repeat match goal with
              | H : _ = ?l ++ _ :: _ |- _ =>
                  is_var l; destruct l as [|[? ?] l]; cbn [app] in H;
                  inversion H; subst; clear H
              end.
  all: cbn [loads_ok] in Hok;
    repeat match goal with
           | H : exists _, _ |- _ => destruct H as (? & H)
           | H : _ /\ _ |- _ => destruct H as (? & H)
           end.
  all: subst; unfold bind;
    repeat match goal with
           | H : load_data ?f ?b _ = (Ok _, _)
             |- context [call_load_data ?f ?b ?t] =>
               rewrite (@call_load_data_ok f b t _ _ H); clear H
           end.
  all: match goal with
       | |- context [call_load_data ?f ?b ?t] =>
           rewrite (@call_load_data_raise f b t _ _ Hfail)
       end.
  all: cbn [entropy trace load_events map fst snd app];
    rewrite <- ?app_assoc; reflexivity.
Qed.

(** *** Rows and parameter sets *)

Lemma blocks_rows_nth gs acq ps bs r grid :
  call_like acq ->
  blocks gs acq ps bs r grid ->
  forall n p row,
    nth_error ps n = Some p ->
    nth_error (written (List.concat bs)) n = Some row ->
    exists l, row = csv_line (fieldnames gs)
                      (result_row (Dict.remove "profile" p) l).
Proof.
  intros Hacq.
  induction 1 as [|p ps evs bs r grid Hb Hbs IH|p ps evs e Hb];
    intros n q row Hq Hrow; cbn [List.concat] in Hrow.
  - destruct n; discriminate Hq.
  - apply (block_ok Hacq) in Hb as (_ & l & Hw).
    rewrite written_app, Hw in Hrow. cbn [app] in Hrow.
    destruct n as [|n]; cbn [nth_error] in Hq, Hrow.
    + injection Hq as <-. injection Hrow as <-. now exists l.
    + eapply IH; eassumption.
  - apply (block_raise Hacq) in Hb as [Hw _].
    rewrite app_nil_r, Hw in Hrow. destruct n; discriminate Hrow.
Qed.

Lemma NoDup_keys_remove {V} (k : string) (d : Dict.t V) :
  NoDup (Dict.keys d) -> NoDup (Dict.keys (Dict.remove k d)).
Proof.
  unfold Dict.keys, Dict.remove.
  induction d as [|[k1 v1] d IH]; cbn [map filter fst]; intros H;
    [constructor|].
  apply NoDup_cons_iff in H as [Hfresh Hnd].
  destruct (negb (String.eqb k k1)); cbn [map fst]; [|now apply IH].
  constructor; [|now apply IH].
  intros Hin. apply Hfresh. apply in_map_iff in Hin as (kv & <- & Hkv).
  apply filter_In in Hkv as [Hkv _]. now apply in_map.
Qed.

(** X15: the data rows follow the parameter sets in order, and carry their
    values.  Whatever the outcome of the sweep, the [n]-th data row holds,
    under every parameter name other than [profile], the value that the
    [n]-th parameter set of the controller has for that name. *)
Theorem rows_follow_grid
    modelname wvfp_ rand_ repeat_ cv_ path_ (s : state) gs s1 c r gs' s2 :
  __init__ modelname wvfp_ rand_ repeat_ cv_ path_ s = (Ok gs, s1) ->
  run_command gs c s1 = (r, gs', s2) ->
  exists rows,
    written (trace s2) = written (trace s1) ++ rows
    /\ forall n p row,
         nth_error (param_grid gs) n = Some p ->
         nth_error rows n = Some row ->
         forall i k v,
           nth_error (fieldnames gs) i = Some k ->
           k <> "profile" ->
           Dict.get k p = Some v ->
           nth_error row i = Some v.
Proof.
  intros Hinit Hrun.
  apply init_inv in Hinit
      as (_ & _ & _ & _ & _ & _ & Hgen & _).
  apply run_command_shape in Hrun
      as [(e & evs & -> & _ & Ht & Hl)
         |(acq & loads & bs & Hacq & Hl & Hb & Ht)].
  - exists []. rewrite Ht, written_app, (written_loads Hl).
    split; [reflexivity|]. intros n p row _ Hrow.
    destruct n; discriminate Hrow.
  - exists (written (List.concat bs)).
    rewrite Ht, !written_app, (written_loads Hl), written_closing,
      app_nil_r.
    split; [reflexivity|]. intros n p row Hp Hrow i k v Hi Hk Hv.
    destruct (blocks_rows_nth Hacq Hb _ Hp Hrow) as (l & ->).
    rewrite csv_line_nth with (k := k) by assumption.
    unfold result_row. rewrite get_update_some with (v := v);
      [reflexivity| |].
    + apply NoDup_keys_remove. apply nth_error_In in Hp.
      exact (@generated_nodup_keys modelname rand_ (param_grid gs) p
               Hgen Hp).
    + rewrite get_remove.
      destruct (String.eqb k "profile") eqn:E; [|assumption].
      apply String.eqb_eq in E. contradiction.
Qed.

(** *** Grid search and random search side by side *)

Lemma family_names_cover modelname extra :
  grid_family modelname = Some extra ->
  incl (Dict.keys (grid_base ++ extra))
       (sample_base_names ++ sample_family_names modelname)
  /\ ~ In "prf_cat" (Dict.keys (grid_base ++ extra)).
Proof.
  unfold grid_family, sample_family_names.
  destruct (str_in modelname crossnet_names);
    [|destruct (str_in modelname memnet_names);
      [|destruct (str_in modelname transformer_names)]];
    intros H; first [discriminate H | injection H as <-].
  all: split;
    [intros k Hk; cbn in Hk |- *;
     repeat (destruct Hk as [<-|Hk];
             [repeat (first [left; reflexivity | right])|]);
     contradiction
    |cbn; intros Hin;
     repeat (destruct Hin as [Hin|Hin]; [discriminate Hin|]);
     exact Hin].
Qed.

(** X16: for one supported model, a random search has every column of a
    grid search: each parameter name of a parameter set of the grid is
    also a name of every sampled parameter set.  The sampled sets have the
    parameter [prf_cat] in addition, which no parameter set of the grid
    has. *)
Theorem random_search_columns modelname :
  supported modelname = true ->
  exists grid,
    get_param_grid modelname = Ok grid
    /\ forall p g,
         In p grid ->
         exists q,
           fst (randsample_params modelname g) = Ok q
           /\ incl (Dict.keys p) (Dict.keys q)
           /\ In "prf_cat" (Dict.keys q)
           /\ ~ In "prf_cat" (Dict.keys p).
Proof.
  intros Hs. destruct (supported_grid modelname Hs) as (extra & grid & Hf & Hg).
  exists grid. split; [assumption|]. intros p g Hp.
  destruct (@randsample_supported modelname g Hs) as (q & Hq).
  exists q. split; [assumption|].
  destruct (@grid_names_of modelname extra grid p Hf Hg Hp) as (Hperm & _).
  apply sample_names_of in Hq as [-> _].
  apply family_names_cover in Hf as [Hincl Hnot].
  split; [|split].
  - intros k Hk. apply Hincl. eapply Permutation_in; eassumption.
  - apply in_or_app. left. cbn.
    repeat (first [left; reflexivity | right]).
  - intros Hin. apply Hnot. eapply Permutation_in; eassumption.
Qed.

End Sweep.

(* ------------------------------------------------------------------ *)
(** ** The theorems at concrete inputs

    The sweeps below run in the small outside world [Demo], on three
    sampled parameter sets of the model [crossnet], with two repetitions
    and three folds. *)

Local Abbreviation demo_start :=
  (@mkState Demo.World Demo.Arrays 0 Demo.draws []).
Local Abbreviation demo_init :=
  (@__init__ Demo.World Demo.Arrays Demo.today
         "crossnet" (Some "wv.vec") (Some 3) 2 3 "data").
Local Abbreviation demo_object := (ok_or blank (fst (demo_init demo_start))).
Local Abbreviation demo_ready := (snd (demo_init demo_start)).
Local Abbreviation demo_run :=
  (@run_command Demo.World Demo.Arrays Demo.load_data Demo.run_fixed_fast
                Demo.run_xval Demo.np_average Demo.np_std).
Local Abbreviation demo_run_failing :=
  (@run_command Demo.World Demo.Arrays Demo.load_data Demo.run_fixed_failing
                Demo.run_xval Demo.np_average Demo.np_std).
Local Abbreviation demo_fixed :=
  (@fixed Demo.World Demo.Arrays Demo.load_data Demo.run_fixed_fast
          Demo.np_average Demo.np_std).
Local Abbreviation demo_xval :=
  (@xval Demo.World Demo.Arrays Demo.load_data Demo.run_xval
         Demo.np_average Demo.np_std).
Local Abbreviation sweep_fixed := (CmdFixed "train.csv" "test.csv").
Local Abbreviation demo_done := (demo_run demo_object sweep_fixed demo_ready).

Lemma grid_size_is_product_witness :
  supported "crossnet" = true
  /\ exists extra grid,
       grid_family "crossnet" = Some extra
       /\ get_param_grid "crossnet" = Ok grid
       /\ List.length grid = combinations (grid_base ++ extra).
Proof.
  split; [reflexivity|]. apply grid_size_is_product. reflexivity.
Defined.

Lemma sampled_values_in_range_witness :
  supported "tf" = true
  /\ exists params,
       fst (randsample_params "tf" Demo.draws) = Ok params
       /\ forall k v, In (k, v) params -> in_declared_range k v = true.
Proof.
  split; [reflexivity|]. apply sampled_values_in_range. reflexivity.
Defined.

Lemma unsupported_model_raises_witness :
  supported "bert" = false
  /\ get_param_grid "bert" = Raise NotImplementedError
  /\ (forall g, fst (randsample_params "bert" g) = Raise NotImplementedError)
  /\ (forall wvfp_ rand_ repeat_ cv_ path_ s,
        exists s',
          @__init__ Demo.World Demo.Arrays Demo.today
                "bert" wvfp_ rand_ repeat_ cv_ path_ s
          = (Raise NotImplementedError, s')
          /\ world s' = world s /\ trace s' = trace s).
Proof.
  split; [reflexivity|].
  exact (@unsupported_model_raises Demo.World Demo.Arrays Demo.today
                                   "bert" eq_refl).
Defined.

Lemma csv_header_and_rows_witness :
  let done := demo_done in
  demo_init demo_start = (Ok demo_object, demo_ready)
  /\ done = (Ok tt, snd (fst done), snd done)
  /\ exists first rows,
       hd_error (param_grid demo_object) = Some first
       /\ written (trace (snd done))
          = written (trace demo_start)
            ++ map VStr (Dict.keys first
                         ++ map fmacro_key (seq 0 2)
                         ++ ["fmacro_avg"; "fmacro_std"])
               :: rows
       /\ List.length rows = List.length (retained (param_grid demo_object)).
Proof.
  cbv zeta.
  split; [vm_compute; reflexivity|]. split; [vm_compute; reflexivity|].
  apply (@csv_header_and_rows
           Demo.World Demo.Arrays Demo.today Demo.load_data
           Demo.run_fixed_fast Demo.run_xval Demo.np_average Demo.np_std
           "crossnet" (Some "wv.vec") (Some 3) 2 3 "data" demo_start
           demo_object demo_ready sweep_fixed
           (snd (fst demo_done)) (snd demo_done));
    vm_compute; reflexivity.
Defined.

Lemma profile_column_empty_witness :
  let done := demo_done in
  demo_init demo_start = (Ok demo_object, demo_ready)
  /\ done = (fst (fst done), snd (fst done), snd done)
  /\ In "profile" (fieldnames demo_object)
  /\ exists rows,
       written (trace (snd done))
       = written (trace demo_start)
         ++ map VStr (fieldnames demo_object) :: rows
       /\ forall row i,
            In row rows ->
            nth_error (fieldnames demo_object) i = Some "profile" ->
            nth_error row i = Some (VStr "").
Proof.
  cbv zeta.
  split; [vm_compute; reflexivity|]. split; [vm_compute; reflexivity|].
  apply (@profile_column_empty
           Demo.World Demo.Arrays Demo.today Demo.load_data
           Demo.run_fixed_fast Demo.run_xval Demo.np_average Demo.np_std
           "crossnet" (Some "wv.vec") (Some 3) 2 3 "data" demo_start
           demo_object demo_ready sweep_fixed
           (fst (fst demo_done)) (snd (fst demo_done)) (snd demo_done));
    vm_compute; reflexivity.
Defined.

Local Abbreviation demo_failed :=
  (demo_run_failing demo_object sweep_fixed demo_ready).

Lemma exception_aborts_sweep_witness :
  let done := demo_failed in
  done = (fst (fst done), snd (fst done), snd done)
  /\ exists evs,
       trace (snd done) = trace demo_ready ++ evs
       /\ forall ev e,
            In ev evs -> raised ev = Some e ->
            fst (fst done) = Raise e
            /\ (exists evs0,
                  evs = evs0 ++ [ev]
                  /\ Forall (fun x => raised x = None) evs0)
            /\ (exists pre p post,
                  param_grid demo_object = pre ++ p :: post
                  /\ param_grid (snd (fst done))
                     = map (Dict.remove "profile") pre
                       ++ Dict.remove "profile" p :: post
                  /\ List.length (written evs)
                     = List.length (retained pre)).
Proof.
  cbv zeta. split; [vm_compute; reflexivity|].
  apply (@exception_aborts_sweep
           Demo.World Demo.Arrays Demo.load_data Demo.run_fixed_failing
           Demo.run_xval Demo.np_average Demo.np_std
           demo_object sweep_fixed demo_ready
           (fst (fst demo_failed)) (snd (fst demo_failed)) (snd demo_failed)).
  vm_compute; reflexivity.
Defined.

(** The failing sweep: the fourth training call raises, during the second
    of the three parameter sets.  The sweep ends with that exception after
    one data row; the third parameter set still has its profile flag. *)
Example failing_sweep :
  let done := demo_failed in
  fst (fst done) = Raise (Other "ResourceExhaustedError")
  /\ List.length (written (trace (snd done))) = 2
  /\ map (Dict.mem "profile") (param_grid (snd (fst done)))
     = [false; false; true]
  /\ csv_closed (snd (fst done)) = false.
Proof. vm_compute. repeat split; reflexivity. Qed.

Local Abbreviation demo_fixed_done :=
  (demo_fixed demo_object "train.csv" "test.csv" demo_ready).

Lemma fixed_loads_once_and_repeats_witness :
  let done := demo_fixed_done in
  let gs := demo_object in
  let tr := path_join (path gs) "train.csv" in
  let te := path_join (path gs) "test.csv" in
  done = (Ok tt, snd (fst done), snd done)
  /\ exists d w1 w2 w3 w4 bs,
       Demo.load_data tr false (world demo_ready) = (Ok (train d), w1)
       /\ Demo.load_data tr true w1 = (Ok (train_p d), w2)
       /\ Demo.load_data te false w2 = (Ok (test d), w3)
       /\ Demo.load_data te true w3 = (Ok (test_p d), w4)
       /\ trace (snd done)
          = trace demo_ready
            ++ [ELoad Demo.Arrays tr false; ELoad Demo.Arrays tr true;
                ELoad Demo.Arrays te false; ELoad Demo.Arrays te true]
            ++ List.concat bs ++ [EClose Demo.Arrays]
       /\ param_grid (snd (fst done))
          = map (Dict.remove "profile") (param_grid gs)
       /\ Forall2
            (fun params evs =>
               exists fmacro_list,
                 List.length fmacro_list = repeat gs
                 /\ evs = map (fun q =>
                                 train_event d (Dict.get "profile" params)
                                   (Dict.remove "profile" params) (Ok q))
                              fmacro_list
                          ++ [EWrite Demo.Arrays
                                (csv_line (fieldnames gs)
                                   (result_row Demo.np_average Demo.np_std
                                      (Dict.remove "profile" params)
                                      fmacro_list))])
            (retained (param_grid gs)) bs.
Proof.
  cbv zeta. split; [vm_compute; reflexivity|].
  apply (@fixed_loads_once_and_repeats
           Demo.World Demo.Arrays Demo.load_data Demo.run_fixed_fast
           Demo.np_average Demo.np_std
           demo_object "train.csv" "test.csv" demo_ready
           (snd (fst demo_fixed_done)) (snd demo_fixed_done)).
  vm_compute; reflexivity.
Defined.

Local Abbreviation demo_xval_done := (demo_xval demo_object "all.csv" demo_ready).

Lemma xval_score_columns_witness :
  let done := demo_xval_done in
  let gs := demo_object in
  demo_init demo_start = (Ok gs, demo_ready)
  /\ done = (fst (fst done), snd (fst done), snd done)
  /\ exists evs,
       trace (snd done) = trace demo_ready ++ evs
       /\ (forall j, In (fmacro_key j) (fieldnames gs) <-> j < 2)
       /\ (forall x y profile c params scores,
             In (EXval x y profile c params (Ok scores)) evs ->
             2 < List.length scores ->
             fst (fst done) = Raise ValueError
             /\ exists evs0,
                  evs = evs0 ++ [EXval x y profile c params (Ok scores)])
       /\ (forall line,
             In line (written evs) ->
             exists x y profile c params scores,
               In (EXval x y profile c params (Ok scores)) evs
               /\ List.length scores <= 2
               /\ forall j i,
                    nth_error (fieldnames gs) i = Some (fmacro_key j) ->
                    nth_error line i
                    = Some (if Nat.ltb j (List.length scores)
                            then VFloat (nth j scores 0%Q) else VStr "")).
Proof.
  cbv zeta.
  split; [vm_compute; reflexivity|]. split; [vm_compute; reflexivity|].
  apply (@xval_score_columns
           Demo.World Demo.Arrays Demo.today Demo.load_data Demo.run_xval
           Demo.np_average Demo.np_std
           "crossnet" (Some "wv.vec") (Some 3) 2 3 "data" demo_start
           demo_object demo_ready "all.csv"
           (fst (fst demo_xval_done)) (snd (fst demo_xval_done))
           (snd demo_xval_done));
    vm_compute; reflexivity.
Defined.

(** Three folds against two score columns: the first row is refused, and
    the sweep stops after a single cross-validation call. *)
Example xval_more_folds_than_columns :
  let done := demo_xval_done in
  fst (fst done) = Raise ValueError
  /\ written (trace (snd done)) = written (trace demo_ready)
  /\ List.length (trace (snd done)) = List.length (trace demo_ready) + 3.
Proof. vm_compute. repeat split; reflexivity. Qed.

(** One fold against two score columns: every row is written, with the
    second score column empty. *)
Example xval_fewer_folds_than_columns :
  let ready :=
    @__init__ Demo.World Demo.Arrays Demo.today
          "crossnet" (Some "wv.vec") (Some 3) 2 1 "data" demo_start in
  let done := demo_xval (ok_or blank (fst ready)) "all.csv" (snd ready) in
  fst (fst done) = Ok tt
  /\ map (fun line => (nth_error line 15, nth_error line 16))
         (written (trace (snd done)))
     = [(Some (VStr "fmacro_1"), Some (VStr "fmacro_2"));
        (Some (VFloat (1 # 2)), Some (VStr ""));
        (Some (VFloat (1 # 2)), Some (VStr ""));
        (Some (VFloat (1 # 2)), Some (VStr ""))].
Proof. vm_compute. repeat split; reflexivity. Qed.

(** *** The further properties at concrete inputs *)

Lemma sweep_returns_witness :
  demo_init demo_start = (Ok demo_object, demo_ready)
  /\ (forall fp profile w,
        exists d w', Demo.load_data fp profile w = (Ok d, w'))
  /\ (forall m a b c d w pr pa w0,
        exists q w', Demo.run_fixed_fast m a b c d w pr pa w0 = (Ok q, w'))
  /\ exists gs' s2, demo_run demo_object sweep_fixed demo_ready = (Ok tt, gs', s2).
Proof.
  split; [vm_compute; reflexivity|].
  split; [intros; eexists _, _; reflexivity|].
  split; [intros; eexists _, _; reflexivity|].
  apply (@sweep_returns
           Demo.World Demo.Arrays Demo.today Demo.load_data
           Demo.run_fixed_fast Demo.run_xval Demo.np_average Demo.np_std
           "crossnet" (Some "wv.vec") (Some 3) 2 3 "data" demo_start
           demo_object demo_ready sweep_fixed).
  - vm_compute; reflexivity.
  - intros; eexists _, _; reflexivity.
  - intros; eexists _, _; reflexivity.
Defined.

Lemma grid_names_witness :
  supported "memnet" = true
  /\ exists extra grid,
       grid_family "memnet" = Some extra
       /\ get_param_grid "memnet" = Ok grid
       /\ forall p, In p grid ->
            Permutation (Dict.keys p) (Dict.keys (grid_base ++ extra))
            /\ NoDup (Dict.keys p)
            /\ Sorted name_le (Dict.keys p).
Proof.
  split; [reflexivity|]. apply (@grid_names "memnet"). reflexivity.
Defined.

Lemma grid_membership_witness :
  supported "tf" = true
  /\ exists extra grid,
       grid_family "tf" = Some extra
       /\ get_param_grid "tf" = Ok grid
       /\ forall p,
            In p grid
            <-> Dict.keys p = map fst (sorted_items (grid_base ++ extra))
                /\ forall k v, In (k, v) p ->
                     exists vs, In (k, vs) (grid_base ++ extra) /\ In v vs.
Proof.
  split; [reflexivity|]. apply (@grid_membership "tf"). reflexivity.
Defined.

Lemma grid_no_repetition_witness :
  supported "cn" = true
  /\ exists grid, get_param_grid "cn" = Ok grid /\ NoDup grid.
Proof.
  split; [reflexivity|]. apply (@grid_no_repetition "cn"). reflexivity.
Defined.

Lemma sampled_names_witness :
  supported "attnet" = true
  /\ exists p,
       fst (randsample_params "attnet" Demo.draws) = Ok p
       /\ Dict.keys p = sample_base_names ++ sample_family_names "attnet"
       /\ NoDup (Dict.keys p).
Proof.
  split; [reflexivity|].
  apply (@sampled_names "attnet" Demo.draws). reflexivity.
Defined.

Lemma constructor_succeeds_witness :
  supported "crossnet" = true
  /\ exists gs s1, demo_init demo_start = (Ok gs, s1).
Proof.
  split; [reflexivity|].
  apply (@constructor_succeeds
           Demo.World Demo.Arrays Demo.today
           "crossnet" (Some "wv.vec") (Some 3) 2 3 "data" demo_start).
  reflexivity.
Defined.

Lemma construction_mode_witness :
  demo_init demo_start = (Ok demo_object, demo_ready)
  /\ (List.length (param_grid demo_object) = 3
      /\ Forall (fun p => exists g,
                     fst (randsample_params "crossnet" g) = Ok p)
                (param_grid demo_object)
      /\ basename demo_object
         = ("random_search-" ++ "crossnet" ++ "-"
            ++ Demo.today (world demo_start))%string)
  /\ In (EOpen Demo.Arrays (basename demo_object ++ ".csv")%string)
        (trace demo_ready).
Proof.
  split; [vm_compute; reflexivity|].
  apply (@construction_mode
           Demo.World Demo.Arrays Demo.today
           "crossnet" (Some "wv.vec") (Some 3) 2 3 "data" demo_start
           demo_object demo_ready).
  vm_compute; reflexivity.
Defined.

Lemma header_fits_witness :
  demo_init demo_start = (Ok demo_object, demo_ready)
  /\ NoDup (fieldnames demo_object)
  /\ forall p k, In p (param_grid demo_object) -> In k (Dict.keys p) ->
                 In k (fieldnames demo_object).
Proof.
  split; [vm_compute; reflexivity|].
  apply (@header_fits
           Demo.World Demo.Arrays Demo.today
           "crossnet" (Some "wv.vec") (Some 3) 2 3 "data" demo_start
           demo_object demo_ready).
  vm_compute; reflexivity.
Defined.

Lemma csv_rectangular_witness :
  let done := demo_failed in
  demo_init demo_start = (Ok demo_object, demo_ready)
  /\ done = (fst (fst done), snd (fst done), snd done)
  /\ exists first lines,
       hd_error (param_grid demo_object) = Some first
       /\ written (trace (snd done)) = written (trace demo_start) ++ lines
       /\ lines <> []
       /\ forall line, In line lines ->
            List.length line = List.length (Dict.keys first) + 2 + 2.
Proof.
  cbv zeta.
  split; [vm_compute; reflexivity|]. split; [vm_compute; reflexivity|].
  apply (@csv_rectangular
           Demo.World Demo.Arrays Demo.today Demo.load_data
           Demo.run_fixed_failing Demo.run_xval Demo.np_average Demo.np_std
           "crossnet" (Some "wv.vec") (Some 3) 2 3 "data" demo_start
           demo_object demo_ready sweep_fixed
           (fst (fst demo_failed)) (snd (fst demo_failed)) (snd demo_failed));
    vm_compute; reflexivity.
Defined.

Local Abbreviation demo_params :=
  (Dict.remove "profile" (hd [] (param_grid demo_object))).
Local Abbreviation demo_row :=
  (@_result2csvrow Demo.World Demo.Arrays Demo.np_average Demo.np_std
     demo_object demo_params [(1 # 2)%Q; (1 # 4)%Q] demo_ready).

Lemma result2csvrow_cells_witness :
  let gs := demo_object in
  let l := [(1 # 2)%Q; (1 # 4)%Q] in
  demo_row = (Ok tt, snd demo_row)
  /\ NoDup (Dict.keys demo_params)
  /\ plain_keys demo_params = true
  /\ exists line,
       trace (snd demo_row) = trace demo_ready ++ [EWrite Demo.Arrays line]
       /\ (forall k, In k (Dict.keys demo_params) -> In k (fieldnames gs))
       /\ forall i k,
            nth_error (fieldnames gs) i = Some k ->
            (forall v, Dict.get k demo_params = Some v ->
                       nth_error line i = Some v)
            /\ (forall j, k = fmacro_key j ->
                  nth_error line i
                  = Some (if Nat.ltb j (List.length l)
                          then VFloat (nth j l 0%Q) else VStr ""))
            /\ (k = "fmacro_avg" ->
                nth_error line i = Some (VFloat (Demo.np_average l)))
            /\ (k = "fmacro_std" ->
                nth_error line i = Some (VFloat (Demo.np_std l))).
Proof.
  cbv zeta.
  split; [vm_compute; reflexivity|].
  split; [apply distinct_names_NoDup; vm_compute; reflexivity|].
  split; [vm_compute; reflexivity|].
  apply (@result2csvrow_cells
           Demo.World Demo.Arrays Demo.np_average Demo.np_std
           demo_object demo_params [(1 # 2)%Q; (1 # 4)%Q] demo_ready
           (snd demo_row)).
  - vm_compute; reflexivity.
  - apply distinct_names_NoDup; vm_compute; reflexivity.
  - vm_compute; reflexivity.
Defined.

Local Abbreviation demo_init2 :=
  (@__init__ Demo.World Demo.Arrays Demo.today
         "crossnet" (Some "wv.vec") (Some 3) 2 2 "data").
Local Abbreviation demo_object2 := (ok_or blank (fst (demo_init2 demo_start))).
Local Abbreviation demo_ready2 := (snd (demo_init2 demo_start)).
Local Abbreviation demo_xval_done2 :=
  (demo_xval demo_object2 "all.csv" demo_ready2).

Lemma xval_loads_once_and_calls_once_witness :
  let done := demo_xval_done2 in
  let gs := demo_object2 in
  let fp := path_join (path gs) "all.csv" in
  done = (Ok tt, snd (fst done), snd done)
  /\ exists d w1 w2 bs,
       Demo.load_data fp false (world demo_ready2) = (Ok (fst d), w1)
       /\ Demo.load_data fp true w1 = (Ok (snd d), w2)
       /\ trace (snd done)
          = trace demo_ready2
            ++ [ELoad Demo.Arrays fp false; ELoad Demo.Arrays fp true]
            ++ List.concat bs ++ [EClose Demo.Arrays]
       /\ param_grid (snd (fst done))
          = map (Dict.remove "profile") (param_grid gs)
       /\ Forall2
            (fun params evs =>
               exists scores,
                 evs = [xval_event gs d (Dict.get "profile" params)
                          (Dict.remove "profile" params) (Ok scores);
                        EWrite Demo.Arrays
                          (csv_line (fieldnames gs)
                             (result_row Demo.np_average Demo.np_std
                                (Dict.remove "profile" params) scores))])
            (param_grid gs) bs.
Proof.
  cbv zeta. split; [vm_compute; reflexivity|].
  apply (@xval_loads_once_and_calls_once
           Demo.World Demo.Arrays Demo.load_data Demo.run_xval
           Demo.np_average Demo.np_std
           demo_object2 "all.csv" demo_ready2
           (snd (fst demo_xval_done2)) (snd demo_xval_done2)).
  vm_compute; reflexivity.
Defined.

Lemma file_closed_iff_returned_witness :
  let done := demo_failed in
  csv_closed demo_object = false
  /\ done = (fst (fst done), snd (fst done), snd done)
  /\ exists evs,
       trace (snd done) = trace demo_ready ++ evs
       /\ (fst (fst done) = Ok tt ->
           csv_closed (snd (fst done)) = true
           /\ exists evs0, evs = evs0 ++ [EClose Demo.Arrays]
                           /\ ~ In (EClose Demo.Arrays) evs0)
       /\ (forall e, fst (fst done) = Raise e ->
                     csv_closed (snd (fst done)) = false
                     /\ ~ In (EClose Demo.Arrays) evs).
Proof.
  cbv zeta.
  split; [vm_compute; reflexivity|]. split; [vm_compute; reflexivity|].
  apply (@file_closed_iff_returned
           Demo.World Demo.Arrays Demo.load_data Demo.run_fixed_failing
           Demo.run_xval Demo.np_average Demo.np_std
           demo_object sweep_fixed demo_ready
           (fst (fst demo_failed)) (snd (fst demo_failed)) (snd demo_failed));
    vm_compute; reflexivity.
Defined.

Local Abbreviation demo_again :=
  (demo_run (snd (fst demo_done)) (CmdXval "all.csv") (snd demo_done)).

Lemma finished_controller_writes_nothing_witness :
  let done := demo_done in
  let again := demo_again in
  done = (Ok tt, snd (fst done), snd done)
  /\ again = (fst (fst again), snd (fst again), snd again)
  /\ written (trace (snd again)) = written (trace (snd done))
  /\ (param_grid demo_object <> [] -> exists e, fst (fst again) = Raise e).
Proof.
  cbv zeta.
  split; [vm_compute; reflexivity|]. split; [vm_compute; reflexivity|].
  apply (@finished_controller_writes_nothing
           Demo.World Demo.Arrays Demo.load_data Demo.run_fixed_fast
           Demo.run_xval Demo.np_average Demo.np_std
           demo_object sweep_fixed demo_ready
           (snd (fst demo_done)) (snd demo_done) (CmdXval "all.csv")
           (fst (fst demo_again)) (snd (fst demo_again)) (snd demo_again));
    vm_compute; reflexivity.
Defined.

Lemma load_failure_ends_sweep_witness :
  let gs := demo_object in
  let pre := [("data/train.csv", false); ("data/train.csv", true)] in
  load_plan gs sweep_fixed
  = pre ++ ("data/test.csv", false) :: [("data/test.csv", true)]
  /\ loads_ok Demo.load_data_missing pre (world demo_ready) 2
  /\ Demo.load_data_missing "data/test.csv" false 2
     = (Raise (Other "FileNotFoundError"), 3)
  /\ @run_command Demo.World Demo.Arrays Demo.load_data_missing
       Demo.run_fixed_fast Demo.run_xval Demo.np_average Demo.np_std
       gs sweep_fixed demo_ready
     = (Raise (Other "FileNotFoundError"), gs,
        mkState 3 (entropy demo_ready)
          (trace demo_ready ++ load_events Demo.Arrays pre
           ++ [ELoad Demo.Arrays "data/test.csv" false])).
Proof.
  cbv zeta.
  split; [vm_compute; reflexivity|].
  split; [vm_compute; do 2 (eexists _, _; split; [reflexivity|]);
          reflexivity|].
  split; [vm_compute; reflexivity|].
  apply (@load_failure_ends_sweep
           Demo.World Demo.Arrays Demo.load_data_missing
           Demo.run_fixed_fast Demo.run_xval Demo.np_average Demo.np_std
           demo_object sweep_fixed demo_ready
           [("data/train.csv", false); ("data/train.csv", true)]
           "data/test.csv" false [("data/test.csv", true)]
           2 (Other "FileNotFoundError") 3).
  - vm_compute; reflexivity.
  - vm_compute; do 2 (eexists _, _; split; [reflexivity|]); reflexivity.
  - vm_compute; reflexivity.
Defined.

Lemma rows_follow_grid_witness :
  let done := demo_done in
  demo_init demo_start = (Ok demo_object, demo_ready)
  /\ done = (fst (fst done), snd (fst done), snd done)
  /\ exists rows,
       written (trace (snd done)) = written (trace demo_ready) ++ rows
       /\ forall n p row,
            nth_error (param_grid demo_object) n = Some p ->
            nth_error rows n = Some row ->
            forall i k v,
              nth_error (fieldnames demo_object) i = Some k ->
              k <> "profile" ->
              Dict.get k p = Some v ->
              nth_error row i = Some v.
Proof.
  cbv zeta.
  split; [vm_compute; reflexivity|]. split; [vm_compute; reflexivity|].
  apply (@rows_follow_grid
           Demo.World Demo.Arrays Demo.today Demo.load_data
           Demo.run_fixed_fast Demo.run_xval Demo.np_average Demo.np_std
           "crossnet" (Some "wv.vec") (Some 3) 2 3 "data" demo_start
           demo_object demo_ready sweep_fixed
           (fst (fst demo_done)) (snd (fst demo_done)) (snd demo_done));
    vm_compute; reflexivity.
Defined.

Lemma random_search_columns_witness :
  supported "transformer" = true
  /\ exists grid,
       get_param_grid "transformer" = Ok grid
       /\ forall p g,
            In p grid ->
            exists q,
              fst (randsample_params "transformer" g) = Ok q
              /\ incl (Dict.keys p) (Dict.keys q)
              /\ In "prf_cat" (Dict.keys q)
              /\ ~ In "prf_cat" (Dict.keys p).
Proof.
  split; [reflexivity|].
  apply (@random_search_columns "transformer"). reflexivity.
Defined.
